(** * Krypton daemon: servers router and websocket session manager

    A shallow embedding of the parts of [src/routers/servers.ts] and
    [src/routers/websocket.ts] that carry the daemon's templating,
    validation, log-ring, log-framing, power-action, deletion, panel-fetch,
    CPU-statistics and validation-cache behaviour, with the properties the
    specification states about them.

    Conventions of the embedding.
    - A JavaScript string is a [string]: one [ascii] per code unit, for code
      units in the range 0..255.  [String.length] is the [.length] of the
      source.
    - A JavaScript number that the source only compares and counts with is
      a [Z]; the numbers of the sampled container statistics, on which the
      source divides and multiplies, are IEEE 754 binary64 values
      ([PrimFloat.float]), which is what the source computes with.
    - A [Buffer] is a [list byte].
    - A [Map] is a [gmap]; an array is a [list].
    - A function that throws returns a sum, the thrown [Error]'s message on
      the left; calls to the container engine, the panel, the file system,
      the database and the socket are recorded in a trace of effects, and
      their outcomes are supplied by an environment record. *)

From Stdlib Require Import ZArith List Ascii String Lia Decimal DecimalString.
From Stdlib Require Import Strings.Byte.
From Stdlib Require Import PrimFloat.
From stdpp Require Import gmap strings list fin_maps.

Local Open Scope Z_scope.

(** ** JavaScript string primitives used by the source *)

Module JS.

Definition code (c : ascii) : N := N_of_ascii c.

(** [String.prototype.toLowerCase] on code units 0..255: the letters A-Z
    and the Latin-1 capitals U+00C0..U+00DE other than U+00D7. *)
Definition lowerChar (c : ascii) : ascii :=
  let n := code c in
  if ((65 <=? n) && (n <=? 90))%N then ascii_of_N (n + 32)
  else if ((192 <=? n) && (n <=? 222) && negb (n =? 215))%N
       then ascii_of_N (n + 32)
  else c.

Fixpoint mapChars (f : ascii -> ascii) (s : string) : string :=
  match s with
  | EmptyString => EmptyString
  | String c rest => String (f c) (mapChars f rest)
  end.

Definition toLowerCase (s : string) : string := mapChars lowerChar s.

(** [p] is a prefix of [s]. *)
Fixpoint isPrefix (p s : string) : bool :=
  match p, s with
  | EmptyString, _ => true
  | String _ _, EmptyString => false
  | String a p', String b s' => Ascii.eqb a b && isPrefix p' s'
  end.

(** [s.startsWith(p)] *)
Definition startsWith (s p : string) : bool := isPrefix p s.

(** [s.slice(n)] for [0 <= n]. *)
Fixpoint slice (n : nat) (s : string) : string :=
  match n, s with
  | O, _ => s
  | S n', EmptyString => EmptyString
  | S n', String _ rest => slice n' rest
  end.

(** The first occurrence of [pat] in [s]: the text before it and the text
    after it. *)
Fixpoint findFirst (pat s : string) : option (string * string) :=
  if isPrefix pat s then Some (EmptyString, slice (String.length pat) s)
  else match s with
       | EmptyString => None
       | String c rest =>
           match findFirst pat rest with
           | Some (before, after) => Some (String c before, after)
           | None => None
           end
       end.

(** [GetSubstitution] of ECMA-262 for a string pattern (no captures):
    [$$], [$&], [$`] and [$'] are expanded, any other [$] is literal. *)
Fixpoint GetSubstitution (matched before after repl : string) : string :=
  match repl with
  | EmptyString => EmptyString
  | String c tl =>
      if Ascii.eqb c "$" then
        match tl with
        | String d rest =>
            if Ascii.eqb d "$" then String "$" (GetSubstitution matched before after rest)
            else if Ascii.eqb d "&" then matched +:+ GetSubstitution matched before after rest
            else if Ascii.eqb d "`" then before +:+ GetSubstitution matched before after rest
            else if Ascii.eqb d "'" then after +:+ GetSubstitution matched before after rest
            else String c (GetSubstitution matched before after tl)
        | EmptyString => String c EmptyString
        end
      else String c (GetSubstitution matched before after tl)
  end.

(** [s.replace(pat, repl)] with a string pattern: only the first
    occurrence is replaced. *)
Definition replace (s pat repl : string) : string :=
  match findFirst pat s with
  | Some (before, after) =>
      before +:+ GetSubstitution pat before after repl +:+ after
  | None => s
  end.

(** [s.split(sep)] for a separator of one code unit. *)
Fixpoint split (sep : ascii) (s : string) : list string :=
  match s with
  | EmptyString => [EmptyString]
  | String c rest =>
      if Ascii.eqb c sep then EmptyString :: split sep rest
      else match split sep rest with
           | h :: t => String c h :: t
           | [] => [String c EmptyString]
           end
  end.


Definition isDigit (c : ascii) : bool := ((48 <=? code c) && (code c <=? 57))%N.

Definition digitVal (c : ascii) : Z := Z.of_N (code c) - 48.

(** White space skipped by [parseInt], among code units 0..255. *)
Definition isWhiteSpace (c : ascii) : bool :=
  let n := code c in
  (((9 <=? n) && (n <=? 13)) || (n =? 32) || (n =? 160))%N.

Fixpoint skipWhiteSpace (s : string) : string :=
  match s with
  | String c rest => if isWhiteSpace c then skipWhiteSpace rest else s
  | EmptyString => s
  end.

(** The longest prefix of decimal digits, read left to right. *)
Fixpoint readDigits (acc : Z) (seen : bool) (s : string) : option Z :=
  match s with
  | String c rest =>
      if isDigit c then readDigits (acc * 10 + digitVal c) true rest
      else if seen then Some acc else None
  | EmptyString => if seen then Some acc else None
  end.

(** [parseInt(s, 10)]; [None] is [NaN].  The result is the mathematical
    integer: the source only compares it with a string length, and the
    rounding to a double keeps that comparison for lengths below 2^53. *)
Definition parseInt10 (s : string) : option Z :=
  match skipWhiteSpace s with
  | String c rest =>
      if Ascii.eqb c "-" then option_map Z.opp (readDigits 0 false rest)
      else if Ascii.eqb c "+" then readDigits 0 false rest
      else readDigits 0 false (String c rest)
  | EmptyString => None
  end.

(** [Math.min] on two doubles: [NaN] if either is, otherwise the smaller,
    with [-0] below [+0]. *)
Definition Math_min (x y : float) : float :=
  if (is_nan x || is_nan y)%bool then nan
  else if (y <? x)%float then y
  else if (x <? y)%float then x
  else if (is_zero x && get_sign x)%bool then x
  else y.

End JS.

(** ** Resource statistics: [calculateCPUPercent] (websocket.ts) *)

Module Stats.

Record CpuUsage := { total_usage : float }.

Record CpuStats := {
  cpu_usage : CpuUsage;
  system_cpu_usage : float;
  online_cpus : float
}.

Record PreCpuStats := {
  pre_cpu_usage : CpuUsage;
  pre_system_cpu_usage : float
}.

Record MemoryStats := { usage : float; limit : float }.

Record ContainerStatsResponse := {
  memory_stats : MemoryStats;
  cpu_stats : CpuStats;
  precpu_stats : PreCpuStats
}.

Definition cpuDelta (stats : ContainerStatsResponse) : float :=
  (total_usage (cpu_usage (cpu_stats stats))
   - total_usage (pre_cpu_usage (precpu_stats stats)))%float.

Definition systemDelta (stats : ContainerStatsResponse) : float :=
  (system_cpu_usage (cpu_stats stats)
   - pre_system_cpu_usage (precpu_stats stats))%float.

Definition deltasPositive (stats : ContainerStatsResponse) : bool :=
  ((0 <? systemDelta stats)%float && (0 <? cpuDelta stats)%float)%bool.

Definition calculateCPUPercent (stats : ContainerStatsResponse) : float :=
  let cpuDelta := cpuDelta stats in
  let systemDelta := systemDelta stats in
  let cpuCount := online_cpus (cpu_stats stats) in
  if ((0 <? systemDelta)%float && (0 <? cpuDelta)%float)%bool
  then JS.Math_min ((cpuDelta / systemDelta) * cpuCount * 100)%float 100%float
  else 0%float.

(** The formula as the specification words it, with no guard on the
    deltas. *)
Definition cpu_percent_spec (stats : ContainerStatsResponse) : float :=
  JS.Math_min
    ((cpuDelta stats / systemDelta stats) * online_cpus (cpu_stats stats) * 100)%float
    100%float.

Definition mkStats (total pre_total system pre_system cpus : float)
  : ContainerStatsResponse :=
  {| memory_stats := {| usage := 0%float; limit := 1%float |};
     cpu_stats := {| cpu_usage := {| total_usage := total |};
                     system_cpu_usage := system;
                     online_cpus := cpus |};
     precpu_stats := {| pre_cpu_usage := {| total_usage := pre_total |};
                        pre_system_cpu_usage := pre_system |} |}.

End Stats.

(** A function of the source either returns or throws an [Error]. *)
Inductive Outcome (A : Type) : Type :=
| Returned (value : A)
| Thrown (message : string).
Arguments Returned {A} value.
Arguments Thrown {A} message.

(** ** Template engine: [processVariables], [validateVariableValue]
       (servers.ts) *)

Module Template.

Record CargoProperties := {
  hidden : option bool;
  readonly : option bool;
  noDelete : option bool
}.

Record CargoFile := {
  cargo_id : string;
  url : string;
  targetPath : string;
  properties : CargoProperties
}.

(** An element of [ServerConfig["variables"]]. *)
Record ServerVariable := {
  name : string;
  description : option string;
  defaultValue : string;
  currentValue : option string;
  rules : string
}.

(** The body of the [for (const rule of ruleList)] loop with its early
    returns. *)
Fixpoint validateRules (value : string) (ruleList : list string) : bool :=
  match ruleList with
  | [] => true
  | rule :: rest =>
      if String.eqb rule "nullable" then
        if String.eqb value EmptyString then true else validateRules value rest
      else if String.eqb rule "string" then validateRules value rest
      else if JS.startsWith rule "max:" then
        match JS.parseInt10 (JS.slice 4 rule) with
        | Some max =>
            if (max <? Z.of_nat (String.length value)) then false
            else validateRules value rest
        | None => validateRules value rest
        end
      else validateRules value rest
  end.

Definition validateVariableValue (value rules : string) : bool :=
  validateRules value (JS.split "|" rules).

(** [name.replace(/ /g, "_")] *)
Definition spacesToUnderscores (s : string) : string :=
  JS.mapChars (fun c => if Ascii.eqb c " " then "_"%char else c) s.

Definition placeholder (v : ServerVariable) : string :=
  "%" +:+ spacesToUnderscores (JS.toLowerCase (name v)) +:+ "%".

(** [currentValue ?? defaultValue] *)
Definition valueOf (v : ServerVariable) : string :=
  match currentValue v with
  | Some cur => cur
  | None => defaultValue v
  end.

Definition ruleViolation (v : ServerVariable) : string :=
  "Variable " +:+ name v +:+ " value doesn't match rules: " +:+ rules v.

(** The [for (const variable of variables)] loop. *)
Fixpoint substituteVariables (result : string) (variables : list ServerVariable)
  : Outcome string :=
  match variables with
  | [] => Returned result
  | variable :: rest =>
      if negb (validateVariableValue (valueOf variable) (rules variable))
      then Thrown (ruleViolation variable)
      else substituteVariables
             (JS.replace result (placeholder variable) (valueOf variable)) rest
  end.

(** The longest run of code units other than the quote, and what
    follows it: the [[^']+] of the cargo pattern. *)
Fixpoint spanNotQuote (s : string) : string * string :=
  match s with
  | String c rest =>
      if Ascii.eqb c "'" then (EmptyString, s)
      else let '(run, after) := spanNotQuote rest in (String c run, after)
  | EmptyString => (EmptyString, EmptyString)
  end.

(** A match of [/%cargo:\['([^']+)'\]%/] at the start of [s]: the
    captured path and the length of the match. *)
Definition matchCargoAt (s : string) : option (string * nat) :=
  if JS.isPrefix "%cargo:['" s then
    let '(path, after) := spanNotQuote (JS.slice 9 s) in
    if negb (String.eqb path EmptyString) && JS.isPrefix "']%" after
    then Some (path, (9 + String.length path + 3)%nat)
    else None
  else None.

Definition hasCargo (cargo : list CargoFile) (path : string) : bool :=
  existsb (fun c => String.eqb (targetPath c) path) cargo.

(** [result.replace(cargoRegex, callback)] with the global flag: matches
    are taken left to right without overlap ([skip] code units of the
    current match are still to be passed over); the callback returns the
    path or throws. *)
Fixpoint replaceCargo (cargo : list CargoFile) (skip : nat) (s : string)
  : Outcome string :=
  match s with
  | EmptyString => Returned EmptyString
  | String c rest =>
      match skip with
      | S k => replaceCargo cargo k rest
      | O =>
          match matchCargoAt s with
          | Some (path, len) =>
              if hasCargo cargo path then
                match replaceCargo cargo (len - 1) rest with
                | Returned out => Returned (path +:+ out)
                | Thrown e => Thrown e
                end
              else Thrown ("Referenced cargo file not found: " +:+ path)
          | None =>
              match replaceCargo cargo 0 rest with
              | Returned out => Returned (String c out)
              | Thrown e => Thrown e
              end
          end
      end
  end.

Definition processVariables (input : string) (variables : list ServerVariable)
    (cargo : option (list CargoFile)) : Outcome string :=
  match substituteVariables input variables with
  | Thrown e => Thrown e
  | Returned result =>
      match cargo with
      | Some files => replaceCargo files 0 result
      | None => Returned result
      end
  end.








Definition mkVariable (n dflt : string) (cur : option string) (r : string)
  : ServerVariable :=
  {| name := n; description := None; defaultValue := dflt;
     currentValue := cur; rules := r |}.

End Template.

(** ** Session multiplexer: [WebSocketManager] (websocket.ts) *)

Module WebSocketManager.

Inductive LogType := INFO | SUCCESS | ERROR | WARNING | DAEMON.

Definition MAX_LOGS : nat := 100.
Definition INITIAL_LOGS : nat := 10.
Definition CACHE_TTL : Z := 600000.
Definition CONNECTION_TIMEOUT : Z := 5000.

Record NodeInfo := {
  node_id : string; node_name : string; fqdn : string; port : Z
}.

Record ServerInfo := {
  id : string; server_name : string; server_internalId : string;
  node : NodeInfo
}.

Record ValidateResponse := { validated : bool; server : ServerInfo }.

Record CachedValidation := {
  validation : ValidateResponse;
  timestamp : Z
}.

(** A [ConsoleSession]; streams are handles, the socket is the key of the
    session in [sessions]. *)
Record ConsoleSession := {
  container : string;
  stream : option nat;
  serverId : string;
  internalId : string;
  userId : string;
  authenticated : bool;
  logStream : option nat;
  stdin : option nat;
  lastLogIndex : Z;
  lastHeartbeat : Z
}.

(** The maps held by the manager. *)
Record Manager := {
  sessions : gmap nat ConsoleSession;
  logBuffers : gmap string (list string);
  validationCache : gmap string CachedValidation;
  ipConnections : gmap string Z
}.

(** *** The log ring *)

(** [addLogToBuffer]: the array of [internalId] is created when absent,
    [log] is pushed unless the array already includes it, and the head is
    shifted out once the length passes [MAX_LOGS]. *)
Definition addLogToBuffer (internalId log : string)
    (logBuffers : gmap string (list string)) : gmap string (list string) :=
  let logBuffers :=
    match logBuffers !! internalId with
    | Some _ => logBuffers
    | None => <[internalId := []]> logBuffers
    end in
  let buffer := default [] (logBuffers !! internalId) in
  if bool_decide (log ∈ buffer) then logBuffers
  else
    let buffer := buffer ++ [log] in
    let buffer := if (MAX_LOGS <? length buffer)%nat then tail buffer
                  else buffer in
    <[internalId := buffer]> logBuffers.

Definition getLogsForSession (internalId : string)
    (logBuffers : gmap string (list string)) : list string :=
  default [] (logBuffers !! internalId).

(** A sequence of insertions [(internalId, log)], oldest first. *)
Definition insertAll (inserts : list (string * string))
    (logBuffers : gmap string (list string)) : gmap string (list string) :=
  foldl (fun bufs '(internalId, log) => addLogToBuffer internalId log bufs)
        logBuffers inserts.

(** What one insertion does to the array it is made into. *)
Definition pushBounded (log : string) (buffer : list string) : list string :=
  if bool_decide (log ∈ buffer) then buffer
  else if (length buffer <? MAX_LOGS)%nat then buffer ++ [log]
  else tail buffer ++ [log].

(** The invariant of one array. *)
Definition ringOk (buffer : list string) : Prop :=
  (length buffer ≤ MAX_LOGS)%nat ∧ NoDup buffer.

(** The ring as the specification words it: only a repeat of the entry
    last appended is dropped. *)
Definition ring_insert_spec (log : string) (buffer : list string)
  : list string :=
  if bool_decide (last buffer = Some log) then buffer
  else
    let buffer := buffer ++ [log] in
    if (MAX_LOGS <? length buffer)%nat then tail buffer else buffer.

(** *** The log attacher's parser *)

Definition byteAt (chunk : list byte) (i : Z) : Z :=
  Z.of_N (Byte.to_N (nth (Z.to_nat i) chunk x00)).

(** [chunk.readUInt32BE(i)] *)
Definition readUInt32BE (chunk : list byte) (i : Z) : Z :=
  byteAt chunk i * 2 ^ 24 + byteAt chunk (i + 1) * 2 ^ 16
  + byteAt chunk (i + 2) * 2 ^ 8 + byteAt chunk (i + 3).

(** [chunk.slice(from)] and [chunk.slice(from, to)] *)
Definition sliceFrom (chunk : list byte) (from : Z) : list byte :=
  drop (Z.to_nat from) chunk.

Definition sliceRange (chunk : list byte) (from to : Z) : list byte :=
  take (Z.to_nat (to - from)) (drop (Z.to_nat from) chunk).

Definition chunkLength (chunk : list byte) : Z := Z.of_nat (length chunk).

Definition isValidHeader (chunk : list byte) (offset : Z) : bool :=
  let streamType := byteAt chunk offset in
  let padding1 := byteAt chunk (offset + 1) in
  let padding2 := byteAt chunk (offset + 2) in
  let padding3 := byteAt chunk (offset + 3) in
  let size := readUInt32BE chunk (offset + 4) in
  (streamType <=? 2) && (padding1 =? 0) && (padding2 =? 0)
  && (padding3 =? 0) && (0 <? size) && (size <=? chunkLength chunk - 8)
  && (offset + 8 + size <=? chunkLength chunk).

(** The [while (offset < chunk.length)] loop of the [data] handler.  The
    result lists, in order, the byte slices that the handler decodes with
    [toString('utf8')] and appends to its line buffer.  [None] only when
    [fuel] iterations did not reach the end of the loop. *)
Fixpoint parseFrom (fuel : nat) (chunk : list byte) (offset : Z)
    (emitted : list (list byte)) : option (list (list byte)) :=
  match fuel with
  | O => None
  | S fuel' =>
      if negb (offset <? chunkLength chunk) then Some emitted
      else if (chunkLength chunk <? offset + 8)
      then Some (emitted ++ [sliceFrom chunk offset])
      else if isValidHeader chunk offset then
        let size := readUInt32BE chunk (offset + 4) in
        let messageStart := offset + 8 in
        let messageEnd := messageStart + size in
        parseFrom fuel' chunk messageEnd
          (emitted ++ [sliceRange chunk messageStart messageEnd])
      else Some (emitted ++ [sliceFrom chunk offset])
  end.

Definition parseChunk (chunk : list byte) : option (list (list byte)) :=
  parseFrom (S (length chunk)) chunk 0 [].

(** A framed record of the engine's multiplexed stream. *)
Record LogFrame := { streamType : byte; payload : list byte }.

Definition byteOfZ (z : Z) : byte :=
  default x00 (Byte.of_N (Z.to_N (z mod 256))).

Definition uint32BE (n : Z) : list byte :=
  [byteOfZ (n / 2 ^ 24); byteOfZ (n / 2 ^ 16); byteOfZ (n / 2 ^ 8); byteOfZ n].

Definition encodeFrame (f : LogFrame) : list byte :=
  [streamType f; x00; x00; x00]
  ++ uint32BE (Z.of_nat (length (payload f))) ++ payload f.

Definition encodeFrames (fs : list LogFrame) : list byte :=
  concat (map encodeFrame fs).

(** Stream type 0, 1 or 2 and a length that fits 32 bits. *)
Definition wellFramed (f : LogFrame) : Prop :=
  (Byte.to_N (streamType f) <= 2)%N
  /\ Z.of_nat (length (payload f)) < 2 ^ 32.

(** The first eight bytes have a stream type of at most 2 and zero
    padding. *)
Definition structuralHeader (chunk : list byte) : bool :=
  (8 <=? chunkLength chunk) && (byteAt chunk 0 <=? 2)
  && (byteAt chunk 1 =? 0) && (byteAt chunk 2 =? 0) && (byteAt chunk 3 =? 0).

(** *** Effects of the handlers *)

Inductive ContainerCall :=
| Inspect
| Start
| Stop (t : Z)
| Kill
| Restart (t : Z).

Inductive StatusMessage :=
| PoweredOn            (* "... is now powered on and will begin the pre-boot process." *)
| ForcefullyTerminated (* "... has been forcefully terminated." *)
| PoweredOff.          (* "... has successfully been powered off." *)

(** Outbound JSON frames. *)
Inductive OutFrame :=
| ErrorFrame (message : string)
| PowerStatusFrame (status : StatusMessage) (action state error : string).

(** What a handler does, call by call.  [Broadcast] is a call of
    [broadcastToServer], which itself sends [console_output] frames to the
    sessions of the server; [Send] is a [session.socket.send] of the
    handler's own. *)
Inductive Effect :=
| Broadcast (internalId log : string) (type : LogType)
| Container (call : ContainerCall)
| AttachLogs
| ClearLogBuffer (internalId : string)
| Send (frame : OutFrame)
| ConsoleError (message : string)
| HttpGet (url : string) (bearer : string) (timeoutMs : Z)
| StreamEnd (handle : nat)
| StreamDestroy (handle : nat).

(** *** Power actions *)

Record ContainerState := { Status : string; Error : string }.

(** What the container engine answers during one [handlePowerAction]:
    the first [inspect], the power operation, the second [inspect]. *)
Record PowerEnv := {
  inspectBefore : Outcome ContainerState;
  operation : Outcome unit;
  inspectAfter : Outcome ContainerState
}.

Definition exitedAsStopped (status : string) : string :=
  JS.replace status "exited" "stopped".

Definition illegalTransition (action currentState : string) : bool :=
  (String.eqb action "start" && String.eqb currentState "running")
  || ((String.eqb action "stop" || String.eqb action "kill")
      && String.eqb currentState "stopped")
  || (String.eqb action "restart" && String.eqb currentState "restarting").

(** The [catch] block of [handlePowerAction]. *)
Definition powerFailure (internalId action errorMsg : string) : list Effect :=
  [ Broadcast internalId
      ("Failed to " +:+ action +:+ " server: " +:+ errorMsg) ERROR;
    ConsoleError ("Server " +:+ action +:+ " failed:");
    Send (ErrorFrame errorMsg) ].

(** The [switch (action)]: the calls issued, and whether the operation
    threw (then [attachLogs] is not reached). *)
Definition powerSwitch (env : PowerEnv) (action : string)
  : list Effect * option string :=
  let after (call : ContainerCall) (andThen : list Effect) :=
    match operation env with
    | Returned _ => (Container call :: andThen, None)
    | Thrown e => ([Container call], Some e)
    end in
  if String.eqb action "start" then after Start [AttachLogs]
  else if String.eqb action "stop" then after (Stop 30) []
  else if String.eqb action "kill" then after Kill []
  else if String.eqb action "restart" then after (Restart 30) [AttachLogs]
  else ([], None).

Definition handlePowerAction (env : PowerEnv) (session : ConsoleSession)
    (action : string) : Outcome unit * list Effect :=
  if negb (existsb (String.eqb action) ["start"; "stop"; "restart"; "kill"])
  then (Thrown "Invalid power action", [])
  else
    let id := internalId session in
    let opening :=
      [ Broadcast id ("Performing a " +:+ action +:+ " action on server...")
          DAEMON;
        Container Inspect ] in
    match inspectBefore env with
    | Thrown e => (Returned tt, opening ++ powerFailure id action e)
    | Returned containerInfo =>
        let currentState := exitedAsStopped (Status containerInfo) in
        if illegalTransition action currentState then
          (Returned tt,
           opening ++ powerFailure id action
             ("Server is already in " +:+ currentState +:+ " state"))
        else
          match powerSwitch env action with
          | (calls, Some e) =>
              (Returned tt, opening ++ calls ++ powerFailure id action e)
          | (calls, None) =>
              let cleared := [ClearLogBuffer id; Container Inspect] in
              match inspectAfter env with
              | Thrown e =>
                  (Returned tt,
                   opening ++ calls ++ cleared ++ powerFailure id action e)
              | Returned newContainerInfo =>
                  let state := Status newContainerInfo in
                  let statusMessage :=
                    if String.eqb state "running" then PoweredOn
                    else if String.eqb action "kill" then ForcefullyTerminated
                    else PoweredOff in
                  (Returned tt,
                   opening ++ calls ++ cleared
                   ++ [Send (PowerStatusFrame statusMessage action
                               (exitedAsStopped state)
                               (Error newContainerInfo))])
              end
          end
    end.

(** The start, stop, kill and restart calls of a trace, in order. *)
Definition powerCalls (trace : list Effect) : list ContainerCall :=
  omap (fun e => match e with
                 | Container Inspect => None
                 | Container call => Some call
                 | _ => None
                 end) trace.

(** The frames the handler itself sends to its session; the console
    output of its broadcasts is not among them. *)
Definition sentFrames (trace : list Effect) : list OutFrame :=
  omap (fun e => match e with Send f => Some f | _ => None end) trace.

(** *** The validation cache *)

Section Cache.

(** [crypto.createHash('sha256').update(s).digest('hex')] *)
Variable sha256_hex : string -> string.
(** [appState.config.appUrl] *)
Variable appUrl : string.

(** [id.replace(/[^a-zA-Z0-9-_]/g, '')] *)
Definition keptInId (c : ascii) : bool :=
  let n := JS.code c in
  (((97 <=? n) && (n <=? 122)) || ((65 <=? n) && (n <=? 90))
   || ((48 <=? n) && (n <=? 57)) || (n =? 45) || (n =? 95))%N.

Fixpoint sanitizeId (id : string) : string :=
  match id with
  | EmptyString => EmptyString
  | String c rest =>
      if keptInId c then String c (sanitizeId rest) else sanitizeId rest
  end.

Definition generateCacheKey (internalId token : string) : string :=
  sha256_hex (internalId +:+ ":" +:+ token).

Definition validateUrl (internalId token : string) : string :=
  appUrl +:+ "/api/servers/" +:+ internalId +:+ "/validate/" +:+ token.

(** [validateToken] called at time [now]; [panel] is the outcome of the
    GET if it is issued and [stored] the time at which its answer is
    cached. *)
Definition validateToken (now : Z) (panel : Outcome ValidateResponse)
    (stored : Z) (internalId token : string)
    (validationCache : gmap string CachedValidation)
  : option ValidateResponse * gmap string CachedValidation * list Effect :=
  let cacheKey := generateCacheKey internalId token in
  let request := HttpGet (validateUrl internalId token) token 5000 in
  let miss :=
    match panel with
    | Returned validation =>
        (Some validation,
         <[cacheKey := {| validation := validation; timestamp := stored |}]>
           validationCache,
         [request])
    | Thrown e =>
        (None, validationCache,
         [request; ConsoleError "Token validation failed:"])
    end in
  match validationCache !! cacheKey with
  | Some cached =>
      if now - timestamp cached <? CACHE_TTL
      then (Some (validation cached), validationCache, [])
      else miss
  | None => miss
  end.

(** The socket's [close] handler of a session set up for
    [(internalId, token)] from address [ip]; the stream teardown calls
    are taken not to throw. *)
Definition onClose (socket : nat) (ip internalId token : string)
    (session : ConsoleSession) (m : Manager) : Manager * list Effect :=
  let teardown :=
    match stdin session with Some h => [StreamEnd h] | None => [] end
    ++ match stream session with Some h => [StreamEnd h] | None => [] end
    ++ match logStream session with
       | Some h => [StreamDestroy h] | None => []
       end in
  let ipConnections :=
    match ipConnections m !! ip with
    | Some currentConnections =>
        if currentConnections =? 0 then ipConnections m
        else if currentConnections <=? 1 then delete ip (ipConnections m)
        else <[ip := currentConnections - 1]> (ipConnections m)
    | None => ipConnections m
    end in
  ({| sessions := delete socket (sessions m);
      logBuffers := logBuffers m;
      validationCache :=
        delete (generateCacheKey internalId token) (validationCache m);
      ipConnections := ipConnections |},
   teardown).

Definition panelRequests (trace : list Effect) : list string :=
  omap (fun e => match e with HttpGet u _ _ => Some u | _ => None end) trace.

End Cache.

End WebSocketManager.

(** ** Panel client and deletion: [fetchServerConfig],
       [router.delete("/:id")] (servers.ts) *)

Module ServersRouter.

(** What one HTTP exchange with the panel ends in. *)
Inductive HttpOutcome (D : Type) : Type :=
| HttpResponse (status : Z) (data : D)
| TransportError (message : string).
Arguments HttpResponse {D} status data.
Arguments TransportError {D} message.

Definition showZ (z : Z) : string := NilEmpty.string_of_int (Z.to_int z).

(** [axios.get] with the default [validateStatus]: a status outside
    200..299 rejects. *)
Definition axios_get {D} (o : HttpOutcome D) : Outcome (Z * D) :=
  match o with
  | HttpResponse status data =>
      if (200 <=? status) && (status <? 300) then Returned (status, data)
      else Thrown ("Request failed with status code " +:+ showZ status)
  | TransportError message => Thrown message
  end.

Inductive Effect :=
| Get (url : string) (timeoutMs : Z)
| Sleep (ms : Z)
| ConsoleError (message : string)
| LogEvent (serverId message : string) (withError : bool).

Definition maxRetries : Z := 3.

Definition configUrl (appUrl serverId : string) : string :=
  appUrl +:+ "/api/servers/" +:+ serverId +:+ "/config".

(** The [for (let attempt = 1; attempt <= maxRetries; attempt++)] loop,
    entered at [attempt] with [remaining = maxRetries - attempt + 1]
    iterations left; [panel k] is what the [k]-th GET ends in. *)
Fixpoint fetchAttempts {D} (remaining : nat) (attempt : Z) (url : string)
    (panel : Z -> HttpOutcome D) (lastError : option string)
  : Outcome D * list Effect :=
  match remaining with
  | O =>
      (Thrown ("Failed to fetch server configuration after "
               +:+ showZ maxRetries +:+ " attempts: "
               +:+ default "undefined" lastError), [])
  | S remaining' =>
      match axios_get (panel attempt) with
      | Returned (status, data) =>
          if status =? 200 then (Returned data, [Get url 10000])
          else
            let '(r, trace) :=
              fetchAttempts remaining' (attempt + 1) url panel lastError in
            (r, Get url 10000 :: trace)
      | Thrown message =>
          let backoff :=
            if attempt <? maxRetries then [Sleep (1000 * attempt)] else [] in
          let '(r, trace) :=
            fetchAttempts remaining' (attempt + 1) url panel (Some message) in
          (r, Get url 10000
              :: ConsoleError
                   ("Failed to fetch server configuration (attempt "
                    +:+ showZ attempt +:+ "/" +:+ showZ maxRetries +:+ "):")
              :: backoff ++ trace)
      end
  end.

Definition fetchServerConfig {D} (appUrl serverId : string)
    (panel : Z -> HttpOutcome D) : Outcome D * list Effect :=
  fetchAttempts (Z.to_nat maxRetries) 1 (configUrl appUrl serverId) panel None.

Definition gets (trace : list Effect) : nat :=
  length (omap (fun e => match e with Get u _ => Some u | _ => None end) trace).

Definition is200 {D} (o : HttpOutcome D) : option D :=
  match o with
  | HttpResponse status data => if status =? 200 then Some data else None
  | TransportError _ => None
  end.

(** An attempt the GET of which rejected: a status outside 200..299 or a
    transport failure. *)
Definition rejected {D} (o : HttpOutcome D) : bool :=
  match axios_get o with Thrown _ => true | Returned _ => false end.

(** The attempts as the specification words them: one per attempt up to
    the first 200 and at most three. *)
Definition attemptsMade_spec {D} (panel : Z -> HttpOutcome D) : list Z :=
  1 :: match is200 (panel 1) with
       | Some _ => []
       | None => 2 :: match is200 (panel 2) with
                      | Some _ => []
                      | None => [3]
                      end
       end.

(** The waits as the specification words them: after each failed attempt,
    one that was not answered with a 200, except the last, one second
    times the attempt number. *)
Definition waits_spec {D} (panel : Z -> HttpOutcome D) : list Z :=
  flat_map (fun k => match is200 (panel k) with
                     | None => if k <? maxRetries then [1000 * k] else []
                     | Some _ => []
                     end)
           (attemptsMade_spec panel).

(** What the code does in one attempt: the GET and, when it rejected, the
    logged error and, unless it was the third attempt, the wait.  An
    attempt answered with a status of 200..299 other than 200 is followed
    by nothing. *)
Definition attemptEffects {D} (url : string) (panel : Z -> HttpOutcome D)
    (k : Z) : list Effect :=
  Get url 10000
  :: (if rejected (panel k)
      then ConsoleError
             ("Failed to fetch server configuration (attempt "
              +:+ showZ k +:+ "/" +:+ showZ maxRetries +:+ "):")
           :: (if k <? 3 then [Sleep (1000 * k)] else [])
      else []).

Definition sleeps (trace : list Effect) : list Z :=
  omap (fun e => match e with Sleep ms => Some ms | _ => None end) trace.

(** *** Deletion *)

(** [name.replace(/[^a-zA-Z0-9_.-]/g, "_")] *)
Definition keptInVolumeName (c : ascii) : bool :=
  let n := JS.code c in
  (((97 <=? n) && (n <=? 122)) || ((65 <=? n) && (n <=? 90))
   || ((48 <=? n) && (n <=? 57)) || (n =? 95) || (n =? 46) || (n =? 45))%N.

Definition sanitizeVolumeName (name : string) : string :=
  JS.mapChars (fun c => if keptInVolumeName c then c else "_"%char) name.

(** The node as the handler sees it: the [servers] table (id to
    [docker_id], which may be null), the containers the engine has, and
    the directories under [volumesDirectory]. *)
Record World := {
  servers : gmap string (option string);
  containers : gset string;
  volumes : gset string
}.

(** Failures of the collaborators during one request, other than a
    container that does not exist.  [fsRemoved] is what a recursive
    removal that fails had already removed of the directories under
    [volumesDirectory] when it failed. *)
Record Faults := {
  dbGetFails : option string;
  engineFails : option string;
  fsFails : option string;
  fsRemoved : gset string;
  dbRunFails : option string
}.

Inductive Response :=
| Status (code : Z)
| StatusJson (code : Z) (error : string).

(** A non-null, non-empty [docker_id]. *)
Definition truthy (docker_id : option string) : option string :=
  match docker_id with
  | Some d => if String.eqb d EmptyString then None else Some d
  | None => None
  end.

(** [container.remove({ force: true, v: true })] *)
Definition containerRemove (f : Faults) (d : string) (cs : gset string)
  : Outcome (gset string) :=
  match engineFails f with
  | Some e => Thrown e
  | None =>
      if bool_decide (d ∈ cs) then Returned (cs ∖ {[d]})
      else Thrown ("No such container: " +:+ d)
  end.

Definition volumePath (volumesDirectory id : string) : string :=
  volumesDirectory +:+ "/" +:+ sanitizeVolumeName id.

(** The names [.] and [..], which [sanitizeVolumeName] leaves as they
    are. *)
Definition isDotName (name : string) : bool :=
  String.eqb name "." || String.eqb name "..".

(** [fs.rm(volumePath, { recursive: true, force: true })] on the
    directories under [volumesDirectory].  A sanitized name has no slash,
    so the path is a directory right under [volumesDirectory], removed
    with all it holds; unless the name is [.] or [..]: the path is then
    [volumesDirectory] itself or its parent, and the directories of all
    servers are removed with it. *)
Definition rmRecursive (volumesDirectory id : string) (vs : gset string)
  : gset string :=
  if isDotName (sanitizeVolumeName id) then ∅
  else vs ∖ {[volumePath volumesDirectory id]}.

(** A removal that fails leaves a directory right under
    [volumesDirectory] in place, whatever it removed inside it; aimed at
    [volumesDirectory] or its parent, it has removed some of the
    directories under it. *)
Definition rmFailed (f : Faults) (id : string) (vs : gset string)
  : gset string :=
  if isDotName (sanitizeVolumeName id) then vs ∖ fsRemoved f else vs.

Definition deleteServer (volumesDirectory : string) (f : Faults)
    (id : string) (w : World) : Response * World * list Effect :=
  let failed (e : string) (w' : World) (trace : list Effect) :=
    (StatusJson 500 e, w',
     trace ++ [ConsoleError "Failed to delete server:"]) in
  match dbGetFails f with
  | Some e => failed e w []
  | None =>
      match servers w !! id with
      | None => (StatusJson 404 "Server not found", w, [])
      | Some docker_id =>
          (* Remove container if it exists *)
          let '(cs, t1) :=
            match truthy docker_id with
            | Some d =>
                match containerRemove f d (containers w) with
                | Returned cs' => (cs', [LogEvent id "Removed container" false])
                | Thrown _ =>
                    (containers w,
                     [ConsoleError "Failed to remove container:";
                      LogEvent id "Failed to remove container" true])
                end
            | None => (containers w, [])
            end in
          (* Remove volume directory *)
          match fsFails f with
          | Some e =>
              failed e {| servers := servers w; containers := cs;
                          volumes := rmFailed f id (volumes w) |} t1
          | None =>
              let w2 := {| servers := servers w; containers := cs;
                           volumes := rmRecursive volumesDirectory id
                                        (volumes w) |} in
              let t2 := t1 ++ [LogEvent id "Removed volume directory" false] in
              (* Remove from database *)
              match dbRunFails f with
              | Some e => failed e w2 t2
              | None =>
                  (Status 204,
                   {| servers := delete id (servers w); containers := cs;
                      volumes := volumes w2 |},
                   t2 ++ [LogEvent id "Removed from database" false])
              end
          end
      end
  end.

Definition noFaults : Faults :=
  {| dbGetFails := None; engineFails := None; fsFails := None;
     fsRemoved := ∅; dbRunFails := None |}.

End ServersRouter.

(** ** Session multiplexer, continued: payload limit, cache sweep, command
       forwarding, broadcast and the log attacher's [data] handler
       (websocket.ts).  Console logging is not part of the traces. *)

Module Multiplexer.

Import WebSocketManager.

Definition MAX_PAYLOAD_SIZE : Z := 1024 * 50.

(** Bytes of one code unit in UTF-8, for code units 0..255. *)
Definition utf8Bytes (c : ascii) : Z := if (JS.code c <? 128)%N then 1 else 2.

(** [Buffer.byteLength(data, 'utf8')] *)
Fixpoint byteLength (data : string) : Z :=
  match data with
  | EmptyString => 0
  | String c rest => utf8Bytes c + byteLength rest
  end.

Definition validatePayloadSize (data : string) : bool :=
  byteLength data <=? MAX_PAYLOAD_SIZE.

(** The body of the interval callback of [startCacheCleanup], run at
    [now]: every entry is visited and deleted when older than the TTL. *)
Definition cacheCleanup (now : Z) (cache : gmap string CachedValidation)
  : gmap string CachedValidation :=
  map_fold (fun key cached acc =>
              if CACHE_TTL <? now - timestamp cached then delete key acc
              else acc)
           cache cache.

(** *** Strings *)

Definition LF : ascii := ascii_of_N 10.
Definition CR : ascii := ascii_of_N 13.

(** [s.replace(/.../g, '')] for a character class: the code units of the
    class are removed. *)
Fixpoint removeChars (inClass : ascii -> bool) (s : string) : string :=
  match s with
  | EmptyString => EmptyString
  | String c rest =>
      if inClass c then removeChars inClass rest
      else String c (removeChars inClass rest)
  end.

Fixpoint trimEnd (s : string) : string :=
  match s with
  | EmptyString => EmptyString
  | String c rest =>
      match trimEnd rest with
      | EmptyString =>
          if JS.isWhiteSpace c then EmptyString else String c EmptyString
      | t => String c t
      end
  end.

(** [s.trim()] *)
Definition trim (s : string) : string := trimEnd (JS.skipWhiteSpace s).

(** [\x20-\x7E] *)
Definition isPrintable (c : ascii) : bool :=
  ((32 <=? JS.code c) && (JS.code c <=? 126))%N.

(** The double quote, the single quote and the backtick. *)
Definition isQuote (c : ascii) : bool :=
  ((JS.code c =? 34) || (JS.code c =? 39) || (JS.code c =? 96))%N.

(** *** Command forwarding *)

Definition sanitizeCommand (command : string) : string :=
  trim (removeChars isQuote (removeChars (fun c => negb (isPrintable c)) command)).

Inductive CommandEffect :=
| Spawn (program : string) (args : list string) (timeoutMs : Z)
| StdinWrite (text : string)
| StdinEndAfter (ms : Z).

(** [handleSendCommand]; [command] is [None] when the event's data is not
    a string.  Spawning and writing are taken not to throw. *)
Definition handleSendCommand (session : ConsoleSession)
    (command : option string) : Outcome unit * list CommandEffect :=
  match command with
  | None => (Thrown "Invalid command format", [])
  | Some command =>
      if String.eqb command EmptyString
      then (Thrown "Invalid command format", [])
      else if negb (validatePayloadSize command)
      then (Thrown "Command exceeds maximum allowed size", [])
      else
        let sanitizedCommand := sanitizeCommand command in
        if String.eqb sanitizedCommand EmptyString then (Returned tt, [])
        else
          (Returned tt,
           [ Spawn "docker" ["attach"; "--sig-proxy=false"; container session]
               10000;
             StdinWrite (sanitizedCommand +:+ String LF EmptyString);
             StdinEndAfter 100 ])
  end.

Fixpoint allChars (p : ascii -> bool) (s : string) : bool :=
  match s with
  | EmptyString => true
  | String c rest => p c && allChars p rest
  end.

Definition isLF (c : ascii) : bool := Ascii.eqb c LF.

(** *** Broadcast *)

Section Broadcast.

(** The colouring functions of the [chalk] library. *)
Variable chalk_hex : string -> string -> string.
Variables chalk_green chalk_red chalk_yellow : string -> string.

Definition formatLogMessage (type : LogType) (message : string) : string :=
  match type with
  | INFO => chalk_hex "90a2b9" message
  | SUCCESS => chalk_green message
  | ERROR => chalk_red message
  | WARNING => chalk_yellow message
  | DAEMON => chalk_yellow "[Krypton Daemon]" +:+ " " +:+ message
  end.

(** An entry of [sessions] with the state of its socket: whether it is
    open, and whether a [send] on it throws. *)
Record Peer := {
  peerSocket : nat;
  peerSession : ConsoleSession;
  readyOpen : bool;
  sendThrows : bool
}.

Definition eligible (internalId : string) (p : Peer) : bool :=
  String.eqb (WebSocketManager.internalId (peerSession p)) internalId
  && authenticated (peerSession p) && readyOpen p.

(** A session the message reaches: eligible, and its [send] succeeds. *)
Definition reached (internalId : string) (p : Peer) : bool :=
  eligible internalId p && negb (sendThrows p).

(** The [for] loop over the sessions, in insertion order, with
    [broadcastCount] sends made so far; the result lists the sockets the
    message was sent to. *)
Fixpoint broadcastLoop (internalId : string) (broadcastCount : Z)
    (peers : list Peer) : list nat :=
  match peers with
  | [] => []
  | p :: rest =>
      if eligible internalId p then
        if 10 <=? broadcastCount then []
        else if sendThrows p then broadcastLoop internalId broadcastCount rest
        else peerSocket p :: broadcastLoop internalId (broadcastCount + 1) rest
      else broadcastLoop internalId broadcastCount rest
  end.

(** [log.replace(/[^\x20-\x7E\n]/g, '').trim()] *)
Definition sanitizeLog (log : string) : string :=
  trim (removeChars (fun c => negb (isPrintable c || isLF c)) log).

(** [broadcastToServer]: the log rings afterwards, the message sent and
    the sockets it was sent to. *)
Definition broadcastToServer (internalId log : string) (type : LogType)
    (peers : list Peer) (logBuffers : gmap string (list string))
  : gmap string (list string) * option (string * list nat) :=
  if negb (validatePayloadSize log) then (logBuffers, None)
  else
    let sanitizedLog := sanitizeLog log in
    if String.eqb sanitizedLog EmptyString then (logBuffers, None)
    else
      let formattedLog := formatLogMessage type sanitizedLog in
      (addLogToBuffer internalId formattedLog logBuffers,
       Some (formattedLog, broadcastLoop internalId 0 peers)).

End Broadcast.

(** *** What a power action puts on the session's socket *)

(** A frame as it arrives on a socket: the [console_output] of a
    broadcast, or a frame the handler sends to its own session. *)
Inductive Arrival :=
| ConsoleOutput (message : string)
| Direct (frame : OutFrame).

Section Delivery.

Variable chalk_hex : string -> string -> string.
Variables chalk_green chalk_red chalk_yellow : string -> string.

(** The socket of the session the handler runs for. *)
Variable socket : nat.
(** The entries of [sessions] at the handler's first broadcast, at its
    second, and so on. *)
Variable sessionsAt : nat -> list Peer.

(** One effect of [handlePowerAction] carried out, the handler having made
    [broadcasts] broadcasts so far: [Broadcast] is [broadcastToServer],
    which sends to every session it reaches, the handler's own included;
    [ClearLogBuffer] is [logBuffers.delete]; [Send] is
    [session.socket.send].  The calls to the engine and [attachLogs] put
    nothing on the socket and leave the rings as they are. *)
Definition perform (broadcasts : nat) (e : WebSocketManager.Effect)
    (logBuffers : gmap string (list string))
  : nat * gmap string (list string) * list Arrival :=
  match e with
  | Broadcast internalId log type =>
      let result :=
        broadcastToServer chalk_hex chalk_green chalk_red chalk_yellow
          internalId log type (sessionsAt broadcasts) logBuffers in
      (S broadcasts, fst result,
       match snd result with
       | Some (message, sockets) =>
           if bool_decide (socket ∈ sockets) then [ConsoleOutput message]
           else []
       | None => []
       end)
  | ClearLogBuffer internalId =>
      (broadcasts, delete internalId logBuffers, [])
  | Send frame => (broadcasts, logBuffers, [Direct frame])
  | _ => (broadcasts, logBuffers, [])
  end.

Fixpoint performAll (broadcasts : nat) (trace : list WebSocketManager.Effect)
    (logBuffers : gmap string (list string))
  : gmap string (list string) * list Arrival :=
  match trace with
  | [] => (logBuffers, [])
  | e :: rest =>
      let step := perform broadcasts e logBuffers in
      let later := performAll (fst (fst step)) rest (snd (fst step)) in
      (fst later, snd step ++ snd later)
  end.

(** The sockets the handler's broadcast number [k] is sent to. *)
Definition recipients (internalId : string) (k : nat) : list nat :=
  take 10 (map peerSocket (List.filter (reached internalId) (sessionsAt k))).

End Delivery.

(** *** The [data] handler of the log attacher *)

(** [buffer.split(/\r?\n/)]: a line feed ends a segment, and a carriage
    return directly before it belongs to the separator. *)
Fixpoint splitLines (s : string) : list string :=
  match s with
  | EmptyString => [EmptyString]
  | String c rest =>
      if Ascii.eqb c LF then EmptyString :: splitLines rest
      else if Ascii.eqb c CR
              && match rest with
                 | String d _ => Ascii.eqb d LF
                 | EmptyString => false
                 end
      then splitLines rest
      else match splitLines rest with
           | h :: t => String c h :: t
           | [] => [String c EmptyString]
           end
  end.

(** What the handler does with one complete line: the message it records
    and sends, if any. *)
Definition cleanLine (line : string) : option string :=
  let trimmed := trim line in
  if (0 <? String.length trimmed)%nat then
    let cleaned := trim (JS.replace trimmed "pterodactyl" "argon") in
    if negb (String.eqb cleaned EmptyString) && validatePayloadSize cleaned
    then Some cleaned
    else None
  else None.

(** The [for (const line of lines)] loop: the rings afterwards and the
    [console_output] messages sent, oldest first. *)
Definition emitLines (internalId : string) (lines : list string)
    (logBuffers : gmap string (list string))
  : gmap string (list string) * list string :=
  foldl (fun '(bufs, sent) line =>
           match cleanLine line with
           | Some cleaned =>
               (addLogToBuffer internalId cleaned bufs, sent ++ [cleaned])
           | None => (bufs, sent)
           end)
        (logBuffers, []) lines.

(** The variables the handler closes over. *)
Record AttachState := {
  lineBuffer : string;
  lastLogTime : Z;
  logCount : Z
}.

(** The rate limit at the head of the handler: whether the chunk is
    processed, and the limiter's variables afterwards. *)
Definition admitChunk (now : Z) (st : AttachState) : bool * Z * Z :=
  if now - lastLogTime st <? 100 then
    let logCount := logCount st + 1 in
    (negb (10 <? logCount), lastLogTime st, logCount)
  else (true, now, 0).

Section Attacher.

(** [bytes.toString('utf8')] *)
Variable toStringUtf8 : list byte -> string.

(** The [data] handler at time [now]. *)
Definition onData (now : Z) (chunk : list byte) (internalId : string)
    (st : AttachState) (logBuffers : gmap string (list string))
  : AttachState * gmap string (list string) * list string :=
  let '(admitted, lastLogTime, logCount) := admitChunk now st in
  if negb admitted then
    ({| lineBuffer := lineBuffer st; lastLogTime := lastLogTime;
        logCount := logCount |}, logBuffers, [])
  else
    let slices := default [] (parseChunk chunk) in
    let buffer :=
      foldl (fun buffer slice => buffer +:+ toStringUtf8 slice)
            (lineBuffer st) slices in
    let lines := splitLines buffer in
    let '(logBuffers, sent) :=
      emitLines internalId (removelast lines) logBuffers in
    ({| lineBuffer := List.last lines EmptyString;
        lastLogTime := lastLogTime; logCount := logCount |},
     logBuffers, sent).

End Attacher.

(** The chunks of a run that pass the rate limit. *)
Fixpoint admittedCount (times : list Z) (st : AttachState) : nat :=
  match times with
  | [] => 0
  | now :: rest =>
      let '(admitted, lastLogTime, logCount) := admitChunk now st in
      ((if admitted then 1 else 0)
       + admittedCount rest {| lineBuffer := lineBuffer st;
                               lastLogTime := lastLogTime;
                               logCount := logCount |})%nat
  end.

End Multiplexer.

(** ** Server lifecycle, continued: [monitorInstallation],
       [createGameContainer] and the power route (servers.ts) *)

Module Lifecycle.

Import Template ServersRouter.

(** *** The installer's exit code *)

Definition installFailed (statusCode : Z) : string :=
  "Installation failed with exit code " +:+ showZ statusCode.

(** [monitorInstallation]: [statusCode] is what [container.wait()]
    answers and [logs] what [container.logs] ends in.  The [Error] thrown
    inside the [try] is caught by its own [catch]. *)
Definition monitorInstallation (statusCode : Z) (logs : Outcome string)
  : Outcome unit :=
  if negb (statusCode =? 0) then
    let tried : Outcome unit :=
      match logs with
      | Returned text =>
          Thrown (installFailed statusCode
                  +:+ String Multiplexer.LF "Last 50 lines of logs:"
                  +:+ String Multiplexer.LF text)
      | Thrown e => Thrown e
      end in
    match tried with
    | Thrown _ => Thrown (installFailed statusCode)
    | Returned u => Returned u
    end
  else Returned tt.

(** *** The runtime container *)

Record InstallConfig := {
  install_dockerImage : string;
  entrypoint : string;
  script : string
}.

Record ConfigFile := { path : string; content : string }.

Record ServerConfig := {
  dockerImage : string;
  variables : list ServerVariable;
  startupCommand : string;
  configFiles : list ConfigFile;
  install : InstallConfig;
  cargo : option (list CargoFile)
}.

Record Allocation := { bindAddress : string; port : Z }.

Record PortBinding := { HostIp : string; HostPort : string }.

Record HostConfig := {
  Memory : Z;
  MemorySwap : Z;
  CpuQuota : Z;
  CpuPeriod : Z;
  NetworkMode : string;
  Privileged : bool;
  Init : bool;
  SecurityOpt : list string;
  ReadonlyPaths : list string;
  RestartPolicy_Name : string;
  Binds : list string;
  PortBindings : list (string * list PortBinding)
}.

(** The argument of [docker.createContainer]. *)
Record CreateOptions := {
  name : string;
  Image : string;
  Entrypoint : option (list string);
  Cmd : option (list string);
  WorkingDir : string;
  AttachStdin : bool;
  AttachStdout : bool;
  AttachStderr : bool;
  OpenStdin : bool;
  Tty : bool;
  StdinOnce : bool;
  User : string;
  Env : list string;
  hostConfig : HostConfig;
  ExposedPorts : list string;
  Labels : list (string * string)
}.

(** [variable.currentValue || variable.defaultValue] *)
Definition envValue (v : ServerVariable) : string :=
  match currentValue v with
  | Some cur => if String.eqb cur EmptyString then defaultValue v else cur
  | None => defaultValue v
  end.

Definition envEntry (v : ServerVariable) : string :=
  Template.name v +:+ "=" +:+ envValue v.

Inductive Effect :=
| Chmod (target : string) (mode : Z)
| CreateContainer (options : CreateOptions).

Section Runtime.

(** [path.resolve] *)
Variable resolve : string -> string.
(** [appState.config.volumesDirectory] *)
Variable volumesDirectory : string.

Definition gameOptions (serverId : string) (config : ServerConfig)
    (memoryLimit cpuLimit : Z) (allocation : Allocation)
    (processedStartupCommand : string) : CreateOptions :=
  let safeServerId := sanitizeVolumeName serverId in
  let volumePath := resolve (volumesDirectory +:+ "/" +:+ safeServerId) in
  let tcp := showZ (port allocation) +:+ "/tcp" in
  let udp := showZ (port allocation) +:+ "/udp" in
  let binding := {| HostIp := bindAddress allocation;
                    HostPort := showZ (port allocation) |} in
  {| name := safeServerId;
     Image := dockerImage config;
     Entrypoint := None;
     Cmd := None;
     WorkingDir := "/home/container";
     AttachStdin := true;
     AttachStdout := true;
     AttachStderr := true;
     OpenStdin := true;
     Tty := false;
     StdinOnce := false;
     User := "container";
     Env := [ "TERM=xterm"; "HOME=/home/container"; "USER=container";
              "STARTUP=" +:+ processedStartupCommand ]
            ++ map envEntry (variables config);
     hostConfig :=
       {| Memory := memoryLimit;
          MemorySwap := memoryLimit * 2;
          CpuQuota := if cpuLimit =? 0 then 0 else cpuLimit * 100000;
          CpuPeriod := 100000;
          NetworkMode := "bridge";
          Privileged := true;
          Init := true;
          SecurityOpt := ["no-new-privileges"];
          ReadonlyPaths := [ "/proc/bus"; "/proc/fs"; "/proc/irq";
                             "/proc/sys"; "/proc/sysrq-trigger" ];
          RestartPolicy_Name := "unless-stopped";
          Binds := [volumePath +:+ ":/home/container:rw"];
          PortBindings := [(tcp, [binding]); (udp, [binding])] |};
     ExposedPorts := [tcp; udp];
     Labels := [ ("pterodactyl.server.id", serverId);
                 ("pterodactyl.server.name", safeServerId) ] |}.

(** [createGameContainer]; [chmod] is what the mode change of the volume
    ends in and [created] what the engine answers to the creation. *)
Definition createGameContainer (chmod : Outcome unit)
    (created : Outcome string) (serverId : string) (config : ServerConfig)
    (memoryLimit cpuLimit : Z) (allocation : Allocation)
  : Outcome string * list Effect :=
  let safeServerId := sanitizeVolumeName serverId in
  let volumePath := resolve (volumesDirectory +:+ "/" +:+ safeServerId) in
  match chmod with
  | Thrown e => (Thrown e, [Chmod volumePath 511])
  | Returned _ =>
      match processVariables (startupCommand config) (variables config) None with
      | Thrown e => (Thrown e, [Chmod volumePath 511])
      | Returned processedStartupCommand =>
          (created,
           [ Chmod volumePath 511;
             CreateContainer
               (gameOptions serverId config memoryLimit cpuLimit allocation
                  processedStartupCommand) ])
      end
  end.

End Runtime.

Definition created (trace : list Effect) : list CreateOptions :=
  omap (fun e => match e with CreateContainer o => Some o | _ => None end) trace.

(** *** The power route *)










End Lifecycle.

(** ** Theorems *)

(** *** CPU percentage *)

Lemma Math_min_100_not_above (x : float) :
  (100 <? JS.Math_min x 100)%float = false.
Proof.
  unfold JS.Math_min.
  destruct (is_nan x || is_nan 100)%bool; [reflexivity |].
  destruct (100 <? x)%float eqn:Hyx; [reflexivity |].
  destruct (x <? 100)%float; [exact Hyx |].
  destruct (is_zero x && get_sign x)%bool; [exact Hyx | reflexivity].
Qed.

(** C8, as amended: [calculateCPUPercent] reports
    min(cpuDelta / systemDelta * online_cpus * 100, 100) when both deltas
    are positive and 0 otherwise, and the reported value never exceeds
    100. *)
Theorem calculateCPUPercent_guarded (stats : Stats.ContainerStatsResponse) :
  Stats.calculateCPUPercent stats
  = (if Stats.deltasPositive stats then Stats.cpu_percent_spec stats
     else 0%float)
  /\ (100 <? Stats.calculateCPUPercent stats)%float = false.
Proof.
  split; [reflexivity |].
  unfold Stats.calculateCPUPercent.
  destruct (_ && _)%bool; [apply Math_min_100_not_above | reflexivity].
Qed.

(** C8, as stated, fails on a sample whose CPU counter went down: the
    formula gives a negative percentage, the code reports 0. *)
Lemma calculateCPUPercent_not_formula :
  ~ (forall stats, Stats.calculateCPUPercent stats = Stats.cpu_percent_spec stats).
Proof.
  intros H. specialize (H (Stats.mkStats 100 200 2000 1000 1)).
  apply (f_equal (fun x => (x <? 0)%float)) in H.
  vm_compute in H. discriminate H.
Qed.

(** *** The log ring *)

Section Ring.
Import WebSocketManager.

Implicit Types (bufs : gmap string (list string)) (buffer : list string).

Lemma addLogToBuffer_lookup id log bufs :
  addLogToBuffer id log bufs !! id
  = Some (pushBounded log (getLogsForSession id bufs)).
Proof.
  unfold addLogToBuffer, pushBounded, getLogsForSession.
  destruct (bufs !! id) as [buffer|] eqn:Hb; simpl.
  - rewrite Hb; simpl. case_bool_decide; [done |].
    rewrite lookup_insert_eq, length_app; simpl. unfold MAX_LOGS.
    destruct (Nat.ltb_spec 100 (length buffer + 1)),
             (Nat.ltb_spec (length buffer) 100); try lia; try done.
    destruct buffer; [simpl in *; lia | done].
  - rewrite lookup_insert_eq; simpl. by rewrite lookup_insert_eq.
Qed.

Lemma addLogToBuffer_lookup_ne id id' log bufs :
  id ≠ id' → addLogToBuffer id log bufs !! id' = bufs !! id'.
Proof.
  intros Hne. unfold addLogToBuffer.
  destruct (bufs !! id) as [buffer|] eqn:Hb; simpl.
  - rewrite Hb; simpl. case_bool_decide; [done |].
    by rewrite lookup_insert_ne.
  - rewrite lookup_insert_eq; simpl.
    by rewrite !lookup_insert_ne by done.
Qed.

Lemma pushBounded_ok log buffer : ringOk buffer → ringOk (pushBounded log buffer).
Proof.
  intros [Hlen Hnd]. unfold pushBounded, ringOk, MAX_LOGS in *.
  case_bool_decide as Hin; [done |].
  assert (NoDup (buffer ++ [log])) as Hnd'.
  { apply NoDup_app. split_and!; [done | | apply NoDup_singleton].
    intros x Hx Hx'. apply list_elem_of_singleton in Hx'. by subst. }
  destruct (Nat.ltb_spec (length buffer) 100).
  - split; [rewrite length_app; simpl; lia | done].
  - destruct buffer as [|x buffer]; simpl in *; [lia |].
    split; [rewrite length_app; simpl; lia |].
    by apply NoDup_cons in Hnd' as [_ ?].
Qed.

Lemma insertAll_ok inserts bufs :
  (∀ id buffer, bufs !! id = Some buffer → ringOk buffer) →
  ∀ id buffer, insertAll inserts bufs !! id = Some buffer → ringOk buffer.
Proof.
  revert bufs. induction inserts as [|[i log] inserts IH]; intros bufs Hok; [done |].
  simpl. apply IH. intros id buffer.
  destruct (decide (i = id)) as [->|Hne].
  - rewrite addLogToBuffer_lookup. intros [= <-]. apply pushBounded_ok.
    unfold getLogsForSession. destruct (bufs !! id) eqn:Hb; simpl; [by eapply Hok |].
    split; [unfold MAX_LOGS; simpl; lia | constructor].
  - rewrite addLogToBuffer_lookup_ne by done. apply Hok.
Qed.

End Ring.

(** C2, as amended: after any sequence of insertions every ring holds at
    most 100 entries, all distinct (so no two adjacent entries are equal);
    an insertion of an entry the ring already holds, adjacent or not,
    leaves it unchanged; any other insertion appends at the tail and, at
    capacity, removes the oldest entry. *)
Theorem addLogToBuffer_ring (inserts : list (string * string)) (id : string) :
  let bufs := WebSocketManager.insertAll inserts ∅ in
  let buffer := WebSocketManager.getLogsForSession id bufs in
  (length buffer ≤ 100)%nat
  ∧ NoDup buffer
  ∧ (∀ i x y, buffer !! i = Some x → buffer !! S i = Some y → x ≠ y)
  ∧ ∀ log,
      WebSocketManager.getLogsForSession id
        (WebSocketManager.addLogToBuffer id log bufs)
      = if bool_decide (log ∈ buffer) then buffer
        else if (length buffer <? 100)%nat then buffer ++ [log]
        else tail buffer ++ [log].
Proof.
  intros bufs buffer.
  assert (WebSocketManager.ringOk buffer) as [Hlen Hnd].
  { subst buffer. unfold WebSocketManager.getLogsForSession.
    destruct (bufs !! id) as [b|] eqn:Hb; simpl.
    - eapply insertAll_ok; [|exact Hb]. intros ? ?. by rewrite lookup_empty.
    - split; [unfold WebSocketManager.MAX_LOGS; simpl; lia | constructor]. }
  split_and!; [done | done | |].
  - intros i x y Hx Hy ->.
    pose proof (NoDup_lookup _ _ _ _ Hnd Hx Hy). lia.
  - intros log. unfold WebSocketManager.getLogsForSession at 1.
    by rewrite addLogToBuffer_lookup.
Qed.

(** C2, as stated, fails: an entry equal to an earlier, non-adjacent entry
    is not appended. *)
Lemma addLogToBuffer_drops_earlier_repeat :
  WebSocketManager.getLogsForSession "s1"
    (WebSocketManager.insertAll [("s1", "a"); ("s1", "b"); ("s1", "a")] ∅)
  = ["a"; "b"]
  ∧ foldl (fun b log => WebSocketManager.ring_insert_spec log b) []
          ["a"; "b"; "a"]
    = ["a"; "b"; "a"].
Proof. split; vm_compute; reflexivity. Qed.

(** *** Log framing *)

Section Framing.
Import WebSocketManager.

Implicit Types (chunk pre rest : list byte) (f : LogFrame).

Lemma byteAt_app_r pre rest i :
  0 <= i → byteAt (pre ++ rest) (Z.of_nat (length pre) + i) = byteAt rest i.
Proof.
  intros Hi. unfold byteAt.
  replace (Z.to_nat (Z.of_nat (length pre) + i))
    with (length pre + Z.to_nat i)%nat by lia.
  by rewrite app_nth2_plus.
Qed.

Lemma byteOfZ_value z : Z.of_N (Byte.to_N (byteOfZ z)) = z mod 256.
Proof.
  unfold byteOfZ.
  assert (0 <= z mod 256 < 256) as Hr by (apply Z.mod_pos_bound; lia).
  destruct (Byte.of_N (Z.to_N (z mod 256))) as [b|] eqn:Hb; simpl.
  - apply Byte.to_of_N in Hb. lia.
  - apply Byte.of_N_None_iff in Hb. lia.
Qed.

Lemma readUInt32BE_uint32BE n rest :
  0 <= n < 2 ^ 32 → readUInt32BE (uint32BE n ++ rest) 0 = n.
Proof.
  intros Hn. unfold readUInt32BE, byteAt, uint32BE. simpl.
  rewrite !byteOfZ_value.
  change (2 ^ 24) with 16777216. change (2 ^ 16) with 65536.
  change (2 ^ 8) with 256. change (2 ^ 32) with 4294967296 in Hn.
  Z.div_mod_to_equations. lia.
Qed.

Lemma encodeFrame_length f :
  chunkLength (encodeFrame f) = 8 + Z.of_nat (length (payload f)).
Proof.
  unfold chunkLength, encodeFrame, uint32BE.
  rewrite !length_app. simpl. lia.
Qed.

(** The header fields read at the start of an encoded frame. *)
Lemma header_fields pre f rest :
  wellFramed f →
  let chunk := pre ++ encodeFrame f ++ rest in
  let offset := Z.of_nat (length pre) in
  byteAt chunk offset = Z.of_N (Byte.to_N (streamType f))
  ∧ byteAt chunk (offset + 1) = 0
  ∧ byteAt chunk (offset + 2) = 0
  ∧ byteAt chunk (offset + 3) = 0
  ∧ readUInt32BE chunk (offset + 4) = Z.of_nat (length (payload f)).
Proof.
  intros [Hty Hlen] chunk offset. subst chunk offset.
  rewrite <- (Z.add_0_r (Z.of_nat (length pre))) at 1.
  rewrite !byteAt_app_r by lia.
  split_and!; try reflexivity.
  unfold readUInt32BE.
  rewrite <- !Z.add_assoc. rewrite !byteAt_app_r by lia.
  etrans; [| apply (readUInt32BE_uint32BE _ (payload f ++ rest)); lia].
  unfold readUInt32BE, encodeFrame, byteAt, uint32BE. simpl.
  lia.
Qed.

Lemma parseFrom_frames frames : ∀ fuel pre emitted,
  Forall (λ f, wellFramed f ∧ payload f ≠ []) frames →
  (length frames < fuel)%nat →
  parseFrom fuel (pre ++ encodeFrames frames) (Z.of_nat (length pre)) emitted
  = Some (emitted ++ map payload frames).
Proof.
  induction frames as [|f frames IH]; intros fuel pre emitted Hfs Hfuel.
  - destruct fuel as [|fuel]; [simpl in Hfuel; lia |].
    simpl. unfold encodeFrames, chunkLength. simpl. rewrite !app_nil_r.
    rewrite Z.ltb_irrefl. simpl. done.
  - destruct fuel as [|fuel]; [simpl in Hfuel; lia |].
    apply Forall_cons in Hfs as [[Hwf Hne] Hfs].
    change (encodeFrames (f :: frames))
      with (encodeFrame f ++ encodeFrames frames).
    destruct (header_fields pre f (encodeFrames frames) Hwf)
      as (H0 & H1 & H2 & H3 & Hsz).
    pose proof (encodeFrame_length f) as Hlen.
    assert (0 < Z.of_nat (length (payload f))) as Hpos.
    { destruct (payload f); [done | simpl; lia]. }
    assert (chunkLength (pre ++ encodeFrame f ++ encodeFrames frames)
            = Z.of_nat (length pre) + 8 + Z.of_nat (length (payload f))
              + chunkLength (encodeFrames frames)) as Hcl.
    { unfold chunkLength in *. rewrite !length_app. lia. }
    assert (0 <= chunkLength (encodeFrames frames)) as Hge
      by (unfold chunkLength; lia).
    cbn [parseFrom].
    destruct (Z.ltb_spec (Z.of_nat (length pre))
                (chunkLength (pre ++ encodeFrame f ++ encodeFrames frames)));
      [| lia].
    cbn [negb].
    destruct (Z.ltb_spec
                (chunkLength (pre ++ encodeFrame f ++ encodeFrames frames))
                (Z.of_nat (length pre) + 8)); [lia |].
    assert (isValidHeader (pre ++ encodeFrame f ++ encodeFrames frames)
              (Z.of_nat (length pre)) = true) as ->.
    { unfold isValidHeader. rewrite H0, H1, H2, H3, Hsz.
      destruct Hwf as [Hty _].
      repeat (apply andb_true_intro; split); lia. }
    rewrite Hsz.
    assert (sliceRange (pre ++ encodeFrame f ++ encodeFrames frames)
              (Z.of_nat (length pre) + 8)
              (Z.of_nat (length pre) + 8 + Z.of_nat (length (payload f)))
            = payload f) as ->.
    { unfold sliceRange.
      replace (Z.to_nat (Z.of_nat (length pre) + 8))
        with (length pre + 8)%nat by lia.
      replace (Z.to_nat (Z.of_nat (length pre) + 8
                         + Z.of_nat (length (payload f))
                         - (Z.of_nat (length pre) + 8)))
        with (length (payload f)) by lia.
      rewrite <- drop_drop, drop_app_length.
      unfold encodeFrame, uint32BE. simpl.
      by rewrite drop_0, take_app_length. }
    replace (Z.of_nat (length pre) + 8 + Z.of_nat (length (payload f)))
      with (Z.of_nat (length (pre ++ encodeFrame f)))
      by (unfold chunkLength in Hlen; rewrite length_app; lia).
    rewrite (app_assoc pre), IH; [| done | simpl in Hfuel; lia].
    by rewrite <- app_assoc.
Qed.

Lemma encodeFrames_length_ge frames :
  (length frames ≤ length (encodeFrames frames))%nat.
Proof.
  induction frames as [|f frames IH]; [done |].
  change (encodeFrames (f :: frames))
    with (encodeFrame f ++ encodeFrames frames).
  rewrite length_app. unfold encodeFrame, uint32BE.
  rewrite !length_app. simpl. lia.
Qed.

(** A chunk whose first header is not accepted is passed on whole. *)
Lemma parseChunk_raw chunk :
  chunk ≠ [] →
  (chunkLength chunk <? 8) || negb (isValidHeader chunk 0) = true →
  parseChunk chunk = Some [chunk].
Proof.
  intros Hne Hbad. unfold parseChunk. cbn [parseFrom].
  assert (0 < chunkLength chunk) as Hpos.
  { unfold chunkLength. destruct chunk; [done | simpl; lia]. }
  destruct (Z.ltb_spec 0 (chunkLength chunk)); [| lia]. cbn [negb].
  change (0 + 8) with 8.
  destruct (chunkLength chunk <? 8); [reflexivity |].
  simpl in Hbad. apply negb_true_iff in Hbad. rewrite Hbad. reflexivity.
Qed.

Lemma structuralHeader_invalid chunk :
  structuralHeader chunk = false →
  (chunkLength chunk <? 8) || negb (isValidHeader chunk 0) = true.
Proof.
  intros Hs.
  destruct (isValidHeader chunk 0) eqn:Hv; [| apply orb_true_r].
  exfalso. unfold isValidHeader in Hv. unfold structuralHeader in Hs.
  change (0 + 1) with 1 in Hv. change (0 + 2) with 2 in Hv.
  change (0 + 3) with 3 in Hv.
  rewrite !andb_true_iff in Hv.
  destruct Hv as ((((((Ht & Hp1) & Hp2) & Hp3) & Hpos) & Hfit) & _).
  rewrite Ht, Hp1, Hp2, Hp3, !andb_true_r in Hs.
  lia.
Qed.

End Framing.

(** C3, as amended: for a chunk that concatenates correctly framed records
    with non-empty payloads the parser yields exactly the payloads, in
    order; for a chunk whose first eight bytes are not a structurally
    valid header, or carry a zero length or a length beyond the chunk, it
    yields the entire chunk as one raw payload (and nothing for an empty
    chunk). *)
Theorem parseChunk_framing :
  (∀ frames,
     Forall (λ f, WebSocketManager.wellFramed f
                  ∧ WebSocketManager.payload f ≠ []) frames →
     WebSocketManager.parseChunk (WebSocketManager.encodeFrames frames)
     = Some (map WebSocketManager.payload frames))
  ∧ (∀ chunk,
       WebSocketManager.structuralHeader chunk = false
       ∨ WebSocketManager.isValidHeader chunk 0 = false →
       WebSocketManager.parseChunk chunk
       = Some (match chunk with [] => [] | _ => [chunk] end)).
Proof.
  split.
  - intros frames Hfs. unfold WebSocketManager.parseChunk.
    apply (parseFrom_frames frames _ [] []); [done |].
    pose proof (encodeFrames_length_ge frames). lia.
  - intros [|b chunk] Hbad; [reflexivity |].
    destruct Hbad as [Hs | Hv]; apply parseChunk_raw; try done.
    + by apply structuralHeader_invalid.
    + rewrite Hv. apply orb_true_r.
Qed.

(** C3, as stated, fails on a correctly framed record with an empty
    payload: the header is passed on as raw text, together with what
    follows it. *)
Lemma parseChunk_empty_payload :
  let frames :=
    [ {| WebSocketManager.streamType := x01; WebSocketManager.payload := [] |};
      {| WebSocketManager.streamType := x01;
         WebSocketManager.payload := [x68; x69] |} ] in
  Forall WebSocketManager.wellFramed frames
  ∧ WebSocketManager.parseChunk (WebSocketManager.encodeFrames frames)
    = Some [WebSocketManager.encodeFrames frames]
  ∧ concat [WebSocketManager.encodeFrames frames]
    ≠ concat (map WebSocketManager.payload frames).
Proof.
  split_and!.
  - repeat constructor; vm_compute; congruence.
  - vm_compute. reflexivity.
  - vm_compute. discriminate.
Qed.

(** C3: the framing theorem at a one-record chunk and at an unframed
    chunk. *)
Lemma parseChunk_framing_witness :
  WebSocketManager.parseChunk
    (WebSocketManager.encodeFrames
       [ {| WebSocketManager.streamType := x01;
            WebSocketManager.payload := [x68; x69] |} ])
  = Some [[x68; x69]]
  ∧ WebSocketManager.parseChunk [x68; x69] = Some [[x68; x69]].
Proof.
  destruct parseChunk_framing as [Hframes Hraw]. split.
  - apply (Hframes [ {| WebSocketManager.streamType := x01;
                        WebSocketManager.payload := [x68; x69] |} ]).
    repeat constructor; vm_compute; congruence.
  - apply (Hraw [x68; x69]). left; reflexivity.
Defined.

(** *** Power actions *)

Section Power.
Import WebSocketManager.

Lemma powerCalls_app t1 t2 : powerCalls (t1 ++ t2) = powerCalls t1 ++ powerCalls t2.
Proof. unfold powerCalls. apply omap_app. Qed.

Lemma sentFrames_app t1 t2 : sentFrames (t1 ++ t2) = sentFrames t1 ++ sentFrames t2.
Proof. unfold sentFrames. apply omap_app. Qed.

Lemma powerCalls_failure id action e : powerCalls (powerFailure id action e) = [].
Proof. reflexivity. Qed.

Lemma handlePowerAction_gate env session action info :
  existsb (String.eqb action) ["start"; "stop"; "restart"; "kill"] = true →
  inspectBefore env = Returned info →
  handlePowerAction env session action
  = let id := internalId session in
    let currentState := exitedAsStopped (Status info) in
    let opening :=
      [ Broadcast id ("Performing a " +:+ action +:+ " action on server...")
          DAEMON;
        Container Inspect ] in
    if illegalTransition action currentState then
      (Returned tt,
       opening ++ powerFailure id action
         ("Server is already in " +:+ currentState +:+ " state"))
    else
      match powerSwitch env action with
      | (calls, Some e) =>
          (Returned tt, opening ++ calls ++ powerFailure id action e)
      | (calls, None) =>
          let cleared := [ClearLogBuffer id; Container Inspect] in
          match inspectAfter env with
          | Thrown e =>
              (Returned tt,
               opening ++ calls ++ cleared ++ powerFailure id action e)
          | Returned newContainerInfo =>
              let state := Status newContainerInfo in
              let statusMessage :=
                if String.eqb state "running" then PoweredOn
                else if String.eqb action "kill" then ForcefullyTerminated
                else PoweredOff in
              (Returned tt,
               opening ++ calls ++ cleared
               ++ [Send (PowerStatusFrame statusMessage action
                           (exitedAsStopped state)
                           (Error newContainerInfo))])
          end
      end.
Proof.
  intros Hknown Hi. unfold handlePowerAction. by rewrite Hknown, Hi.
Qed.

End Power.

Ltac legal_transition Hi Hne :=
  match goal with
  | |- context [WebSocketManager.handlePowerAction ?e ?s ?a] =>
      rewrite (handlePowerAction_gate e s a _ eq_refl Hi)
  end;
  unfold WebSocketManager.illegalTransition, WebSocketManager.powerSwitch; cbn [String.eqb Ascii.eqb Bool.eqb andb orb];
  apply String.eqb_neq in Hne; rewrite Hne;
  destruct (WebSocketManager.operation _) as [[]|?]; cbn [snd];
  [ destruct (WebSocketManager.inspectAfter _) as [?|?]; cbn [snd] | ];
  rewrite ?powerCalls_app, ?powerCalls_failure; reflexivity.

Ltac illegal_transition Hi Hcs :=
  match goal with
  | |- context [WebSocketManager.handlePowerAction ?e ?s ?a] =>
      rewrite (handlePowerAction_gate e s a _ eq_refl Hi)
  end;
  unfold WebSocketManager.illegalTransition; rewrite Hcs; cbn [snd];
  split; reflexivity.


(** C5: with the container's state inspected as [currentState] (an
    [exited] status read as [stopped]), start from running, stop or kill
    from stopped and restart from restarting send an error frame and issue
    no start, stop, kill or restart call; any other stop or restart is
    issued with a timeout of 30 seconds, kill and start with none. *)
Theorem handlePowerAction_transitions
    (env : WebSocketManager.PowerEnv)
    (session : WebSocketManager.ConsoleSession) (action : string)
    (info : WebSocketManager.ContainerState) :
  WebSocketManager.inspectBefore env = Returned info →
  let currentState :=
    WebSocketManager.exitedAsStopped (WebSocketManager.Status info) in
  let trace := snd (WebSocketManager.handlePowerAction env session action) in
  ((action = "start" ∧ currentState = "running")
   ∨ ((action = "stop" ∨ action = "kill") ∧ currentState = "stopped")
   ∨ (action = "restart" ∧ currentState = "restarting") →
   WebSocketManager.powerCalls trace = []
   ∧ WebSocketManager.sentFrames trace
     = [WebSocketManager.ErrorFrame
          ("Server is already in " +:+ currentState +:+ " state")])
  ∧ (action = "stop" → currentState ≠ "stopped" →
     WebSocketManager.powerCalls trace = [WebSocketManager.Stop 30])
  ∧ (action = "restart" → currentState ≠ "restarting" →
     WebSocketManager.powerCalls trace = [WebSocketManager.Restart 30])
  ∧ (action = "kill" → currentState ≠ "stopped" →
     WebSocketManager.powerCalls trace = [WebSocketManager.Kill])
  ∧ (action = "start" → currentState ≠ "running" →
     WebSocketManager.powerCalls trace = [WebSocketManager.Start]).
Proof.
  intros Hi currentState trace. subst trace currentState.
  split_and!.
  - intros [[-> Hcs] | [[[-> | ->] Hcs] | [-> Hcs]]];
      illegal_transition Hi Hcs.
  - intros -> Hne. legal_transition Hi Hne.
  - intros -> Hne. legal_transition Hi Hne.
  - intros -> Hne. legal_transition Hi Hne.
  - intros -> Hne. legal_transition Hi Hne.
Qed.

(** C5 at a stop of an exited container and a stop of a running one. *)
Lemma handlePowerAction_transitions_witness :
  let session :=
    {| WebSocketManager.container := "c1"; WebSocketManager.stream := None;
       WebSocketManager.serverId := "s1"; WebSocketManager.internalId := "s1";
       WebSocketManager.userId := "s1"; WebSocketManager.authenticated := true;
       WebSocketManager.logStream := None; WebSocketManager.stdin := None;
       WebSocketManager.lastLogIndex := 0;
       WebSocketManager.lastHeartbeat := 0 |} in
  let env (status : string) :=
    {| WebSocketManager.inspectBefore :=
         Returned {| WebSocketManager.Status := status;
                     WebSocketManager.Error := EmptyString |};
       WebSocketManager.operation := Returned tt;
       WebSocketManager.inspectAfter :=
         Returned {| WebSocketManager.Status := "exited";
                     WebSocketManager.Error := EmptyString |} |} in
  WebSocketManager.powerCalls
    (snd (WebSocketManager.handlePowerAction (env "exited") session "stop"))
  = []
  ∧ WebSocketManager.powerCalls
      (snd (WebSocketManager.handlePowerAction (env "running") session "stop"))
    = [WebSocketManager.Stop 30].
Proof.
  intros session env. split.
  - refine (proj1 (proj1 (handlePowerAction_transitions
                            (env "exited") session "stop" _ eq_refl) _)).
    right; left. split; [by left | reflexivity].
  - refine (proj1 (proj2 (handlePowerAction_transitions
                            (env "running") session "stop" _ eq_refl))
              eq_refl _).
    vm_compute. discriminate.
Defined.

(** *** Fetching the configuration from the panel *)

Section Fetch.
Import ServersRouter.
Context {D : Type}.

Implicit Types (o : HttpOutcome D) (panel : Z → HttpOutcome D).

(** An exchange ends in a 200, in another accepted status, or in a
    rejection. *)
Lemma axios_get_cases o :
  (∃ data, is200 o = Some data ∧ axios_get o = Returned (200, data))
  ∨ (is200 o = None
     ∧ ∃ status data, axios_get o = Returned (status, data)
                      ∧ (status =? 200) = false)
  ∨ (is200 o = None ∧ ∃ message, axios_get o = Thrown message).
Proof.
  destruct o as [status data | message]; simpl.
  - destruct (Z.eqb_spec status 200) as [-> | Hne].
    + left. by exists data.
    + right. destruct ((200 <=? status) && (status <? 300)).
      * left. split; [done |]. exists status, data. split; [done |].
        by apply Z.eqb_neq.
      * right. split; [done |]. by eexists.
  - right; right. split; [done |]. by eexists.
Qed.

End Fetch.

Ltac attempt_cases panel k :=
  let Hok := fresh "Hok" in
  let Hget := fresh "Hget" in
  let Hst := fresh "Hst" in
  destruct (axios_get_cases (panel k))
    as [(? & Hok & Hget) | [(Hok & ? & ? & Hget & Hst) | (Hok & ? & Hget)]];
  rewrite ?Hok, ?Hget; change (200 =? 200) with true;
  cbn iota beta; rewrite ?Hst.

Ltac use_gets :=
  cbn [flat_map app fst snd];
  repeat match goal with
         | H : ServersRouter.axios_get _ = _ |- _ => rewrite !H; clear H
         end.

Ltac fetch_results :=
  let Hin := fresh "Hin" in
  let Hd := fresh "Hd" in
  intros ? ? Hin Hd; cbn in Hin;
  repeat (destruct Hin as [<- | Hin]; [try congruence |]);
  try contradiction;
  (split; [cbn; f_equal; congruence | reflexivity]).

Ltac fetch_exhausted :=
  let Hall := fresh "Hall" in
  intros Hall;
  first [ exfalso;
          pose proof (Hall 1 ltac:(cbn; tauto));
          pose proof (Hall 2 ltac:(cbn; tauto));
          pose proof (Hall 3 ltac:(cbn; tauto)); congruence
        | split; [reflexivity | eexists; reflexivity] ].

Ltac fetch_waits :=
  let Hrej := fresh "Hrej" in
  intros Hrej;
  try (exfalso;
       match goal with
       | Hget : ServersRouter.axios_get (?panel ?k) = Returned (?st, _),
         Hst : (?st =? 200) = false,
         Hok : ServersRouter.is200 (?panel ?k) = None |- _ =>
           let H := fresh in
           pose proof (Hrej k ltac:(cbn; tauto) Hok) as H;
           rewrite Hget in H; discriminate H
       end);
  use_gets;
  repeat match goal with
         | H : ServersRouter.is200 _ = _ |- _ => rewrite H
         end;
  reflexivity.

Ltac fetch_leaf :=
  split_and!;
  [ use_gets; reflexivity | use_gets; cbn; lia | use_gets; reflexivity
  | use_gets; fetch_results | use_gets; fetch_exhausted | fetch_waits ].

(** C7: [fetchServerConfig] issues a GET per attempt, up to the first 200
    and at most three; a 200 returns its body with no further attempt;
    after an attempt that rejected (a status outside 200..299 or a
    transport failure) other than the third it waits 1000 ms times the
    attempt number, and after an attempt answered with another status of
    200..299 it retries without waiting; with no 200 in three attempts it
    throws.  When no attempt is answered with such a status, the waits are
    those of the specification. *)
Theorem fetchServerConfig_attempts {D : Type} (appUrl serverId : string)
    (panel : Z → ServersRouter.HttpOutcome D) :
  let url := ServersRouter.configUrl appUrl serverId in
  let result := fst (ServersRouter.fetchServerConfig appUrl serverId panel) in
  let trace := snd (ServersRouter.fetchServerConfig appUrl serverId panel) in
  trace = flat_map (ServersRouter.attemptEffects url panel)
                   (ServersRouter.attemptsMade_spec panel)
  ∧ (ServersRouter.gets trace ≤ 3)%nat
  ∧ ServersRouter.sleeps trace
    = flat_map (λ k, if ServersRouter.rejected (panel k) && (k <? 3)
                     then [1000 * k] else [])
               (ServersRouter.attemptsMade_spec panel)
  ∧ (∀ k data,
       In k (ServersRouter.attemptsMade_spec panel) →
       ServersRouter.is200 (panel k) = Some data →
       result = Returned data ∧ ServersRouter.gets trace = Z.to_nat k)
  ∧ ((∀ k, In k [1; 2; 3] → ServersRouter.is200 (panel k) = None) →
     ServersRouter.gets trace = 3%nat ∧ ∃ message, result = Thrown message)
  ∧ ((∀ k, In k [1; 2; 3] → ServersRouter.is200 (panel k) = None →
           ServersRouter.rejected (panel k) = true) →
     ServersRouter.sleeps trace = ServersRouter.waits_spec panel).
Proof.
  intros url result trace. subst result trace url.
  unfold ServersRouter.fetchServerConfig, ServersRouter.waits_spec,
    ServersRouter.attemptsMade_spec, ServersRouter.attemptEffects,
    ServersRouter.rejected.
  change (Z.to_nat ServersRouter.maxRetries) with 3%nat.
  cbn [ServersRouter.fetchAttempts].
  attempt_cases panel 1;
    [| change (1 + 1) with 2; attempt_cases panel 2;
       [| change (2 + 1) with 3; attempt_cases panel 3 ..] ..];
    fetch_leaf.
Qed.

(** C7 at a panel that answers 500, then 204, then 200. *)
Lemma fetchServerConfig_attempts_witness :
  let panel (k : Z) : ServersRouter.HttpOutcome string :=
    if k =? 1 then ServersRouter.HttpResponse 500 "error"
    else if k =? 2 then ServersRouter.HttpResponse 204 "empty"
    else ServersRouter.HttpResponse 200 "config" in
  fst (ServersRouter.fetchServerConfig "http://panel" "s1" panel)
  = Returned "config"
  ∧ ServersRouter.gets
      (snd (ServersRouter.fetchServerConfig "http://panel" "s1" panel))
    = 3%nat.
Proof.
  intros panel.
  apply (proj1 (proj2 (proj2 (proj2
           (fetchServerConfig_attempts "http://panel" "s1" panel)))) 3 "config");
    [cbn; tauto | reflexivity].
Defined.

(** C7, as first stated, fails at a panel that answers 204 three times:
    the three attempts fail and the function throws, yet it has not
    waited, where the specification has a wait of 1000 ms and one of
    2000 ms. *)
Lemma fetchServerConfig_no_wait_after_2xx :
  let panel (k : Z) : ServersRouter.HttpOutcome string :=
    ServersRouter.HttpResponse 204 "no content" in
  let run := ServersRouter.fetchServerConfig "http://panel" "s1" panel in
  fst run
  = Thrown "Failed to fetch server configuration after 3 attempts: undefined"
  ∧ ServersRouter.gets (snd run) = 3%nat
  ∧ ServersRouter.sleeps (snd run) = []
  ∧ ServersRouter.waits_spec panel = [1000; 2000]
  ∧ ServersRouter.sleeps (snd run) ≠ ServersRouter.waits_spec panel.
Proof.
  intros panel run. split_and!; [reflexivity .. | discriminate].
Qed.

(** *** Deletion *)

Section Removal.
Import ServersRouter.


End Removal.



(** *** The validation cache *)

(** A cached verdict younger than the TTL is returned without a request
    to the panel. *)
Lemma validateToken_cached sha256_hex appUrl now panel stored internalId token
    (cache : gmap string WebSocketManager.CachedValidation) cached :
  cache !! WebSocketManager.generateCacheKey sha256_hex internalId token
  = Some cached →
  now - WebSocketManager.timestamp cached < WebSocketManager.CACHE_TTL →
  WebSocketManager.validateToken sha256_hex appUrl now panel stored
    internalId token cache
  = (Some (WebSocketManager.validation cached), cache, []).
Proof.
  intros Hc Hfresh. unfold WebSocketManager.validateToken. rewrite Hc.
  by destruct (Z.ltb_spec (now - WebSocketManager.timestamp cached)
                 WebSocketManager.CACHE_TTL); [| lia].
Qed.

(** C10: the close handler of a session opened for [(server, token)]
    deletes the cache entry of that pair, whatever its age, and the next
    validation of the same pair sends the panel its request. *)
Theorem onClose_invalidates_cache (sha256_hex : string → string)
    (appUrl : string) (socket : nat) (ip server token : string)
    (session : WebSocketManager.ConsoleSession)
    (m : WebSocketManager.Manager) (now stored : Z)
    (panel : Outcome WebSocketManager.ValidateResponse) :
  let internalId := WebSocketManager.sanitizeId server in
  let closed :=
    fst (WebSocketManager.onClose sha256_hex socket ip internalId token
           session m) in
  let next :=
    WebSocketManager.validateToken sha256_hex appUrl now panel stored
      internalId token (WebSocketManager.validationCache closed) in
  WebSocketManager.validationCache closed
    !! WebSocketManager.generateCacheKey sha256_hex internalId token = None
  ∧ WebSocketManager.panelRequests (snd next)
    = [WebSocketManager.validateUrl appUrl internalId token]
  ∧ WebSocketManager.sessions closed !! socket = None.
Proof.
  intros internalId closed next. subst next closed.
  unfold WebSocketManager.onClose, WebSocketManager.validateToken.
  cbn [fst WebSocketManager.validationCache WebSocketManager.sessions].
  rewrite !lookup_delete_eq.
  split_and!; [done | by destruct panel | done].
Qed.

(** *** Templating *)

(** C1 fails on the code at a string with the same placeholder twice:
    only the first occurrence is substituted. *)
Theorem processVariables_first_occurrence_only :
  Template.processVariables "java -Xms%memory%M -Xmx%memory%M -jar server.jar"
    [Template.mkVariable "Memory" "1024" None "string|max:8"] None
  = Returned "java -Xms1024M -Xmx%memory%M -jar server.jar".
Proof. vm_compute. reflexivity. Qed.

(** A [$&] in a value is expanded to the placeholder itself. *)
Example processVariables_dollar_pattern :
  Template.processVariables "port=%port%"
    [Template.mkVariable "port" "$&" None "string"] None
  = Returned "port=%port%".
Proof. vm_compute. reflexivity. Qed.

(** C9: the first variable of the list whose value violates its rules
    makes [processVariables] throw, for every input string and with or
    without cargo. *)
Theorem processVariables_rule_violation (input : string)
    (before : list Template.ServerVariable) (v : Template.ServerVariable)
    (after : list Template.ServerVariable)
    (cargo : option (list Template.CargoFile)) :
  Forall (λ u, Template.validateVariableValue (Template.valueOf u)
                 (Template.rules u) = true) before →
  Template.validateVariableValue (Template.valueOf v) (Template.rules v)
  = false →
  Template.processVariables input (before ++ v :: after) cargo
  = Thrown ("Variable " +:+ Template.name v
            +:+ " value doesn't match rules: " +:+ Template.rules v).
Proof.
  intros Hbefore Hv. unfold Template.processVariables.
  assert (Template.substituteVariables input (before ++ v :: after)
          = Thrown (Template.ruleViolation v)) as ->; [| done].
  revert input. induction Hbefore as [|u before Hu _ IH]; intros input.
  - simpl. by rewrite Hv.
  - simpl. rewrite Hu. simpl. apply IH.
Qed.

(** C9 at a string with no placeholder and a port longer than [max:4]. *)
Lemma processVariables_rule_violation_witness :
  Template.processVariables "java -jar server.jar"
    ([Template.mkVariable "MEMORY" "1024" None "string|max:8"]
     ++ Template.mkVariable "PORT" "999999" None "string|max:4" :: []) None
  = Thrown "Variable PORT value doesn't match rules: string|max:4".
Proof.
  apply (processVariables_rule_violation "java -jar server.jar"
           [Template.mkVariable "MEMORY" "1024" None "string|max:8"]
           (Template.mkVariable "PORT" "999999" None "string|max:4") [] None).
  - repeat constructor.
  - reflexivity.
Defined.

(** *** Validation rules *)

Section Rules.
Import Template.














End Rules.




(** ** Further properties of the code *)

(** *** Identifier sanitizers *)

Section Sanitizers.
Import Multiplexer.

Lemma allChars_mapChars (p : ascii → bool) (f : ascii → ascii) s :
  (∀ c, p (f c) = true) → allChars p (JS.mapChars f s) = true.
Proof. intros Hf. induction s as [|c s IH]; [done |]. simpl. by rewrite Hf, IH. Qed.

Lemma mapChars_id_on (p : ascii → bool) (f : ascii → ascii) s :
  (∀ c, p c = true → f c = c) → allChars p s = true → JS.mapChars f s = s.
Proof.
  intros Hf. induction s as [|c s IH]; [done |]. simpl.
  intros [Hc Hs]%andb_true_iff. by rewrite (Hf c Hc), (IH Hs).
Qed.

Lemma mapChars_length (f : ascii → ascii) s :
  String.length (JS.mapChars f s) = String.length s.
Proof. induction s as [|c s IH]; [done |]. simpl. by rewrite IH. Qed.

Lemma sanitizeId_kept s :
  allChars WebSocketManager.keptInId (WebSocketManager.sanitizeId s) = true.
Proof.
  induction s as [|c s IH]; [done |]. simpl.
  destruct (WebSocketManager.keptInId c) eqn:Hc; [| done].
  simpl. by rewrite Hc, IH.
Qed.

Lemma sanitizeId_id_on s :
  allChars WebSocketManager.keptInId s = true → WebSocketManager.sanitizeId s = s.
Proof.
  induction s as [|c s IH]; [done |]. simpl.
  intros [Hc Hs]%andb_true_iff. by rewrite Hc, (IH Hs).
Qed.

Lemma sanitizeId_length s :
  (String.length (WebSocketManager.sanitizeId s) ≤ String.length s)%nat.
Proof.
  induction s as [|c s IH]; [done |]. simpl.
  destruct (WebSocketManager.keptInId c); simpl; lia.
Qed.

End Sanitizers.

(** X1: [sanitizeId] is idempotent, returns only code units of
    [A-Za-z0-9_-], never lengthens its argument and leaves an id made of
    such code units unchanged. *)
Theorem sanitizeId_idempotent (id : string) :
  WebSocketManager.sanitizeId (WebSocketManager.sanitizeId id)
  = WebSocketManager.sanitizeId id
  ∧ Multiplexer.allChars WebSocketManager.keptInId
      (WebSocketManager.sanitizeId id) = true
  ∧ (String.length (WebSocketManager.sanitizeId id) ≤ String.length id)%nat
  ∧ (Multiplexer.allChars WebSocketManager.keptInId id = true →
     WebSocketManager.sanitizeId id = id).
Proof.
  split_and!.
  - apply sanitizeId_id_on, sanitizeId_kept.
  - apply sanitizeId_kept.
  - apply sanitizeId_length.
  - apply sanitizeId_id_on.
Qed.

(** X1 at an id that is already safe. *)
Lemma sanitizeId_idempotent_witness :
  WebSocketManager.sanitizeId "srv_01-a" = "srv_01-a".
Proof.
  apply (proj2 (proj2 (proj2 (sanitizeId_idempotent "srv_01-a")))).
  reflexivity.
Defined.

(** X2: [sanitizeVolumeName] is idempotent, keeps the length of the name,
    returns only code units of [A-Za-z0-9_.-] and leaves a name made of
    such code units unchanged. *)
Theorem sanitizeVolumeName_idempotent (name : string) :
  ServersRouter.sanitizeVolumeName (ServersRouter.sanitizeVolumeName name)
  = ServersRouter.sanitizeVolumeName name
  ∧ String.length (ServersRouter.sanitizeVolumeName name) = String.length name
  ∧ Multiplexer.allChars ServersRouter.keptInVolumeName
      (ServersRouter.sanitizeVolumeName name) = true
  ∧ (Multiplexer.allChars ServersRouter.keptInVolumeName name = true →
     ServersRouter.sanitizeVolumeName name = name).
Proof.
  assert (∀ c, ServersRouter.keptInVolumeName
                 (if ServersRouter.keptInVolumeName c then c else "_"%char)
               = true) as Hkept.
  { intros c. by destruct (ServersRouter.keptInVolumeName c) eqn:Hc. }
  assert (∀ s, Multiplexer.allChars ServersRouter.keptInVolumeName s = true →
               ServersRouter.sanitizeVolumeName s = s) as Hid.
  { intros s. apply mapChars_id_on. intros c Hc. by rewrite Hc. }
  unfold ServersRouter.sanitizeVolumeName at 2 3 4 5.
  split_and!.
  - apply Hid. by apply allChars_mapChars.
  - apply mapChars_length.
  - by apply allChars_mapChars.
  - apply Hid.
Qed.

(** X2 at a name that is already safe. *)
Lemma sanitizeVolumeName_idempotent_witness :
  ServersRouter.sanitizeVolumeName "srv.01_a-b" = "srv.01_a-b".
Proof.
  apply (proj2 (proj2 (proj2 (sanitizeVolumeName_idempotent "srv.01_a-b")))).
  reflexivity.
Defined.

(** *** Deletion, continued *)

Section DeleteFrame.
Import ServersRouter.

(** The world after a DELETE: the table either is as before or has lost
    the record of [id], the latter exactly when the answer is 204; the
    directories are as before, or as the removal, completed or failed,
    left them. *)
Lemma deleteServer_world volumesDirectory f id w :
  let result := deleteServer volumesDirectory f id w in
  let w' := snd (fst result) in
  (fst (fst result) = Status 204
   ∧ servers w' = delete id (servers w)
   ∧ volumes w' = rmRecursive volumesDirectory id (volumes w)
   ∨ fst (fst result) ≠ Status 204
     ∧ servers w' = servers w
     ∧ (volumes w' = volumes w
        ∨ volumes w' = rmFailed f id (volumes w)
        ∨ volumes w' = rmRecursive volumesDirectory id (volumes w)))
  ∧ containers w' ⊆ containers w.
Proof.
  intros result w'. subst w' result. unfold deleteServer.
  destruct (dbGetFails f) as [e|]; [split; [right |]; by split_and?; auto |].
  destruct (servers w !! id) as [docker_id|];
    [| split; [right |]; by split_and?; auto].
  assert (∀ d, match containerRemove f d (containers w) with
               | Returned cs => cs ⊆ containers w
               | Thrown _ => True
               end) as Hcs.
  { intros d. unfold containerRemove.
    destruct (engineFails f); [done |].
    case_bool_decide; [| done].
    intros x [Hx _]%elem_of_difference. exact Hx. }
  destruct (truthy docker_id) as [d|].
  - specialize (Hcs d).
    destruct (containerRemove f d (containers w)) as [cs|e];
      destruct (fsFails f) as [e1|]; destruct (dbRunFails f) as [e2|];
      cbn [fst snd servers volumes containers];
      (split; [| done]);
      first [ left; by split_and? | right; split_and?; by auto ].
  - destruct (fsFails f) as [e1|]; destruct (dbRunFails f) as [e2|];
      cbn [fst snd servers volumes containers];
      (split; [| done]);
      first [ left; by split_and? | right; split_and?; by auto ].
Qed.

(** The sanitized name is [.] or [..] for these two ids only. *)
Lemma isDotName_sanitizeVolumeName id :
  isDotName (sanitizeVolumeName id) = true ↔ id = "." ∨ id = "..".
Proof.
  unfold isDotName. rewrite orb_true_iff, !String.eqb_eq. split.
  - assert (∀ c, (if keptInVolumeName c then c else "_"%char) = "."%char →
                 c = "."%char) as Hdot.
    { intros c. by destruct (keptInVolumeName c). }
    destruct id as [|c1 [|c2 [|c3 id]]]; cbn;
      intros [H | H]; simplify_eq; [left | right];
      repeat match goal with
             | H : _ = "."%char |- _ => apply Hdot in H; subst
             end; done.
  - by intros [-> | ->]; [left | right].
Qed.

(** Away from the names [.] and [..] a removal, completed or failed,
    takes out no directory other than its target. *)
Lemma rm_frame volumesDirectory f id (vs : gset string) p :
  isDotName (sanitizeVolumeName id) = false →
  p ∈ vs → p ≠ volumePath volumesDirectory id →
  p ∈ rmRecursive volumesDirectory id vs ∧ p ∈ rmFailed f id vs.
Proof.
  intros Hplain Hp Hne. unfold rmRecursive, rmFailed. rewrite Hplain.
  split; [| done]. apply elem_of_difference. split; [done |].
  by intros ->%elem_of_singleton.
Qed.

Lemma rm_subseteq volumesDirectory f id (vs : gset string) p :
  p ∈ rmRecursive volumesDirectory id vs ∨ p ∈ rmFailed f id vs → p ∈ vs.
Proof.
  unfold rmRecursive, rmFailed. destruct (isDotName _).
  - intros [[]%not_elem_of_empty | [Hp _]%elem_of_difference]. done.
  - intros [[Hp _]%elem_of_difference | Hp]; done.
Qed.

End DeleteFrame.

(** X3: DELETE never changes the record of another server, creates no
    volume directory and adds no container; unless it answers 204 the
    table is as before, and a DELETE of an id with no record answers 404
    and does nothing.  For an id other than [.] and [..] it removes no
    volume directory other than the one of that id.  The ids [.] and
    [..] are kept by the sanitization and lead the recursive removal to
    the volumes directory itself or its parent: a DELETE of one of them
    that answers 204 has removed the directories of all servers. *)
Theorem deleteServer_frame (volumesDirectory : string)
    (f : ServersRouter.Faults) (id : string) (w : ServersRouter.World) :
  let result := ServersRouter.deleteServer volumesDirectory f id w in
  let response := fst (fst result) in
  let w' := snd (fst result) in
  (∀ id', id' ≠ id →
     ServersRouter.servers w' !! id' = ServersRouter.servers w !! id')
  ∧ (response ≠ ServersRouter.Status 204 →
     ServersRouter.servers w' = ServersRouter.servers w)
  ∧ (id ≠ "." → id ≠ ".." →
     ∀ p, p ∈ ServersRouter.volumes w →
          p ≠ ServersRouter.volumePath volumesDirectory id →
          p ∈ ServersRouter.volumes w')
  ∧ (id = "." ∨ id = ".." →
     response = ServersRouter.Status 204 →
     ServersRouter.volumes w' = ∅)
  ∧ ServersRouter.volumes w' ⊆ ServersRouter.volumes w
  ∧ ServersRouter.containers w' ⊆ ServersRouter.containers w
  ∧ (ServersRouter.dbGetFails f = None →
     ServersRouter.servers w !! id = None →
     result = (ServersRouter.StatusJson 404 "Server not found", w, [])).
Proof.
  intros result response w'. subst response w' result.
  destruct (deleteServer_world volumesDirectory f id w) as [Hw Hcs].
  split_and!.
  - intros id' Hne.
    destruct Hw as [(_ & -> & _) | (_ & -> & _)];
      [by rewrite lookup_delete_ne | done].
  - intros Hne. by destruct Hw as [(? & _) | (_ & -> & _)].
  - intros Hdot Hdots p Hp Hne.
    assert (ServersRouter.isDotName (ServersRouter.sanitizeVolumeName id)
            = false) as Hplain.
    { apply not_true_iff_false.
      intros [? | ?]%isDotName_sanitizeVolumeName; done. }
    destruct (rm_frame volumesDirectory f id _ p Hplain Hp Hne) as [Hrm Hfail].
    by destruct Hw as [(_ & _ & ->) | (_ & _ & [-> | [-> | ->]])].
  - intros Hdot%isDotName_sanitizeVolumeName H204.
    destruct Hw as [(_ & _ & ->) | (Hno & _)]; [| done].
    unfold ServersRouter.rmRecursive. by rewrite Hdot.
  - intros p Hp.
    destruct Hw as [(_ & _ & Hv) | (_ & _ & [Hv | [Hv | Hv]])];
      rewrite Hv in Hp; try done;
      apply (rm_subseteq volumesDirectory f id); auto.
  - exact Hcs.
  - intros Hget Hrow. unfold ServersRouter.deleteServer.
    by rewrite Hget, Hrow.
Qed.

(** X3 at a table with two records, and at a DELETE of the id [..]. *)
Lemma deleteServer_frame_witness :
  let w := {| ServersRouter.servers := {[ "s1" := Some "c1"; "s2" := None ]};
              ServersRouter.containers := {[ "c1" ]};
              ServersRouter.volumes := {[ "/volumes/s1"; "/volumes/s2" ]} |} in
  let w' := {| ServersRouter.servers := {[ ".." := None; "s2" := None ]};
               ServersRouter.containers := ∅;
               ServersRouter.volumes := {[ "/volumes/s2" ]} |} in
  ServersRouter.servers
    (snd (fst (ServersRouter.deleteServer "/volumes" ServersRouter.noFaults
                 "s1" w))) !! "s2"
  = Some None
  ∧ ServersRouter.volumes
      (snd (fst (ServersRouter.deleteServer "/volumes" ServersRouter.noFaults
                   ".." w')))
    = ∅.
Proof.
  intros w w'. split.
  - rewrite (proj1 (deleteServer_frame "/volumes" ServersRouter.noFaults
                      "s1" w) "s2" ltac:(discriminate)).
    reflexivity.
  - apply (proj1 (proj2 (proj2 (proj2
             (deleteServer_frame "/volumes" ServersRouter.noFaults ".." w'))))).
    + right. reflexivity.
    + reflexivity.
Defined.



(** *** The validation cache, continued *)

Section CacheSweep.
Import WebSocketManager Multiplexer.

Implicit Types (cache acc : gmap string CachedValidation).

(** The sweep over [m], deleting from [acc]. *)
Lemma cacheSweep_lookup now acc m key :
  map_fold (λ k cached a,
              if CACHE_TTL <? now - timestamp cached then delete k a else a)
           acc m !! key
  = match m !! key with
    | Some cached =>
        if CACHE_TTL <? now - timestamp cached then None else acc !! key
    | None => acc !! key
    end.
Proof.
  revert key.
  apply (map_fold_weak_ind
           (λ r m, ∀ key,
              r !! key = match m !! key with
                         | Some cached =>
                             if CACHE_TTL <? now - timestamp cached
                             then None else acc !! key
                         | None => acc !! key
                         end)).
  - intros key. by rewrite lookup_empty.
  - intros k cached m' r Hk IH key.
    destruct (decide (k = key)) as [-> | Hne].
    + rewrite lookup_insert_eq.
      destruct (CACHE_TTL <? now - timestamp cached);
        [by rewrite lookup_delete_eq |].
      by rewrite IH, Hk.
    + rewrite lookup_insert_ne by done.
      destruct (CACHE_TTL <? now - timestamp cached);
        [rewrite lookup_delete_ne by done |]; apply IH.
Qed.

End CacheSweep.

(** X5: the sweep of the validation cache at [now] removes exactly the
    entries older than the TTL and keeps the others as they are; an entry
    that [validateToken] would still serve at [now] survives it. *)
Theorem cacheCleanup_lookup (now : Z)
    (cache : gmap string WebSocketManager.CachedValidation) (key : string) :
  Multiplexer.cacheCleanup now cache !! key
  = match cache !! key with
    | Some cached =>
        if WebSocketManager.CACHE_TTL <? now - WebSocketManager.timestamp cached
        then None else Some cached
    | None => None
    end
  ∧ (∀ cached,
       cache !! key = Some cached →
       now - WebSocketManager.timestamp cached < WebSocketManager.CACHE_TTL →
       Multiplexer.cacheCleanup now cache !! key = Some cached).
Proof.
  assert (Multiplexer.cacheCleanup now cache !! key
          = match cache !! key with
            | Some cached =>
                if WebSocketManager.CACHE_TTL
                   <? now - WebSocketManager.timestamp cached
                then None else Some cached
            | None => None
            end) as Hsweep.
  { unfold Multiplexer.cacheCleanup. rewrite cacheSweep_lookup.
    by destruct (cache !! key). }
  split; [exact Hsweep |].
  intros cached Hc Hfresh. rewrite Hsweep, Hc.
  by destruct (Z.ltb_spec WebSocketManager.CACHE_TTL
                 (now - WebSocketManager.timestamp cached)); [lia |].
Qed.

(** X6: a verdict the panel has answered is served from the cache, with
    no further request, by every later validation of the same pair made
    less than the TTL after it was stored, and is requested again from
    then on; a failed request stores nothing. *)
Theorem validateToken_round_trip (sha256_hex : string → string)
    (appUrl internalId token : string)
    (cache : gmap string WebSocketManager.CachedValidation)
    (now stored later stored' : Z)
    (verdict : WebSocketManager.ValidateResponse)
    (panel : Outcome WebSocketManager.ValidateResponse) (e : string) :
  let key := WebSocketManager.generateCacheKey sha256_hex internalId token in
  (cache !! key = None
   ∨ (∃ old, cache !! key = Some old
             ∧ WebSocketManager.CACHE_TTL
               ≤ now - WebSocketManager.timestamp old)) →
  let first :=
    WebSocketManager.validateToken sha256_hex appUrl now (Returned verdict)
      stored internalId token cache in
  let cache1 := snd (fst first) in
  let again :=
    WebSocketManager.validateToken sha256_hex appUrl later panel stored'
      internalId token cache1 in
  fst (fst first) = Some verdict
  ∧ (later - stored < WebSocketManager.CACHE_TTL →
     again = (Some verdict, cache1, []))
  ∧ (WebSocketManager.CACHE_TTL ≤ later - stored →
     WebSocketManager.panelRequests (snd again)
     = [WebSocketManager.validateUrl appUrl internalId token])
  ∧ WebSocketManager.validateToken sha256_hex appUrl now (Thrown e) stored
      internalId token cache
    = (None, cache,
       [ WebSocketManager.HttpGet
           (WebSocketManager.validateUrl appUrl internalId token) token 5000;
         WebSocketManager.ConsoleError "Token validation failed:" ]).
Proof.
  intros key Hmiss first cache1 again. subst again cache1 first.
  unfold WebSocketManager.validateToken. fold key.
  assert (∀ A (hit : WebSocketManager.CachedValidation → A) (miss : A),
            match cache !! key with
            | Some cached =>
                if now - WebSocketManager.timestamp cached
                   <? WebSocketManager.CACHE_TTL
                then hit cached else miss
            | None => miss
            end = miss) as Hfirst.
  { intros A hit miss. destruct Hmiss as [-> | (old & -> & Hold)]; [done |].
    by destruct (Z.ltb_spec (now - WebSocketManager.timestamp old)
                   WebSocketManager.CACHE_TTL); [lia |]. }
  rewrite !(Hfirst _ (λ cached, (Some (WebSocketManager.validation cached),
                                 cache, []))).
  cbn [fst snd]. rewrite !lookup_insert_eq.
  cbn [WebSocketManager.timestamp WebSocketManager.validation].
  split_and!; [done | | | done].
  - intros Hfresh.
    by destruct (Z.ltb_spec (later - stored) WebSocketManager.CACHE_TTL);
      [| lia].
  - intros Hold.
    destruct (Z.ltb_spec (later - stored) WebSocketManager.CACHE_TTL);
      [lia |]. by destruct panel.
Qed.

(** X6 at an empty cache, a verdict stored at 1000 ms and a second
    connection one minute later. *)
Lemma validateToken_round_trip_witness :
  let verdict :=
    {| WebSocketManager.validated := true;
       WebSocketManager.server :=
         {| WebSocketManager.id := "s1";
            WebSocketManager.server_name := "survival";
            WebSocketManager.server_internalId := "s1";
            WebSocketManager.node :=
              {| WebSocketManager.node_id := "n1";
                 WebSocketManager.node_name := "node";
                 WebSocketManager.fqdn := "node.example";
                 WebSocketManager.port := 8080 |} |} |} in
  let hash (s : string) := s in
  let cache1 :=
    snd (fst (WebSocketManager.validateToken hash "http://panel" 900
                (Returned verdict) 1000 "s1" "t" ∅)) in
  WebSocketManager.validateToken hash "http://panel" 61000 (Thrown "down")
    61500 "s1" "t" cache1
  = (Some verdict, cache1, []).
Proof.
  intros verdict hash cache1.
  apply (proj1 (proj2 (validateToken_round_trip hash "http://panel" "s1" "t"
                         ∅ 900 1000 61000 61500 verdict (Thrown "down")
                         "unused" (or_introl (lookup_empty _))))).
  vm_compute. reflexivity.
Defined.

(** *** Command forwarding *)

Section Strings.
Import Multiplexer.

Implicit Types (s t : string) (p q : ascii → bool).

Lemma allChars_removeChars_class q s :
  allChars (λ c, negb (q c)) (removeChars q s) = true.
Proof.
  induction s as [|c s IH]; [done |]. simpl.
  destruct (q c) eqn:Hc; [done |]. simpl. by rewrite Hc, IH.
Qed.

Lemma allChars_removeChars p q s :
  allChars p s = true → allChars p (removeChars q s) = true.
Proof.
  induction s as [|c s IH]; [done |]. simpl.
  intros [Hc Hs]%andb_true_iff.
  destruct (q c); [by apply IH |]. simpl. by rewrite Hc, IH.
Qed.

Lemma removeChars_none q s :
  allChars (λ c, negb (q c)) s = true → removeChars q s = s.
Proof.
  induction s as [|c s IH]; [done |]. simpl.
  intros [Hc Hs]%andb_true_iff. apply negb_true_iff in Hc.
  by rewrite Hc, (IH Hs).
Qed.

Lemma allChars_and p q s :
  allChars (λ c, p c && q c) s = allChars p s && allChars q s.
Proof.
  induction s as [|c s IH]; [done |]. simpl. rewrite IH.
  destruct (p c), (q c), (allChars p s), (allChars q s); done.
Qed.

Lemma allChars_skipWhiteSpace p s :
  allChars p s = true → allChars p (JS.skipWhiteSpace s) = true.
Proof.
  induction s as [|c s IH]; [done |]. simpl.
  intros [Hc Hs]%andb_true_iff.
  destruct (JS.isWhiteSpace c); [by apply IH |]. simpl. by rewrite Hc, Hs.
Qed.

Lemma allChars_trimEnd p s :
  allChars p s = true → allChars p (trimEnd s) = true.
Proof.
  induction s as [|c s IH]; [done |]. simpl.
  intros [Hc Hs]%andb_true_iff. specialize (IH Hs).
  destruct (trimEnd s) as [|d t].
  - destruct (JS.isWhiteSpace c); [done |]. simpl. by rewrite Hc.
  - simpl in *. by rewrite Hc, IH.
Qed.

Lemma allChars_trim p s : allChars p s = true → allChars p (trim s) = true.
Proof. intros Hs. by apply allChars_trimEnd, allChars_skipWhiteSpace. Qed.

Lemma trimEnd_idempotent s : trimEnd (trimEnd s) = trimEnd s.
Proof.
  induction s as [|c s IH]; [done |]. simpl.
  destruct (trimEnd s) as [|d t] eqn:Ht.
  - destruct (JS.isWhiteSpace c) eqn:Hc; [done |]. simpl. by rewrite Hc.
  - change (trimEnd (String c (String d t)))
      with (match trimEnd (String d t) with
            | EmptyString =>
                if JS.isWhiteSpace c then EmptyString else String c EmptyString
            | u => String c u
            end).
    by rewrite IH.
Qed.

(** What [skipWhiteSpace] returns does not start with white space. *)
Lemma skipWhiteSpace_head s :
  JS.skipWhiteSpace s = EmptyString
  ∨ ∃ c r, JS.skipWhiteSpace s = String c r ∧ JS.isWhiteSpace c = false.
Proof.
  induction s as [|c s IH]; [by left |]. simpl.
  destruct (JS.isWhiteSpace c) eqn:Hc; [exact IH |]. right. by exists c, s.
Qed.

Lemma trimEnd_head c r :
  JS.isWhiteSpace c = false → ∃ t, trimEnd (String c r) = String c t.
Proof.
  intros Hc. simpl. destruct (trimEnd r) as [|d t]; rewrite ?Hc; by eexists.
Qed.

Lemma trim_fixed s :
  JS.skipWhiteSpace (trim s) = trim s ∧ trimEnd (trim s) = trim s.
Proof.
  unfold trim. split; [| apply trimEnd_idempotent].
  destruct (skipWhiteSpace_head s) as [-> | (c & r & -> & Hc)]; [done |].
  destruct (trimEnd_head c r Hc) as [t ->]. simpl. by rewrite Hc.
Qed.

Lemma trim_idempotent s : trim (trim s) = trim s.
Proof.
  destruct (trim_fixed s) as [Hstart Hend].
  unfold trim at 1. by rewrite Hstart, Hend.
Qed.

Lemma allChars_ext p q s :
  (∀ c, p c = q c) → allChars p s = allChars q s.
Proof. intros Hpq. induction s as [|c s IH]; [done |]. simpl. by rewrite Hpq, IH. Qed.

(** The code units [sanitizeCommand] lets through. *)
Lemma sanitizeCommand_chars command :
  allChars (λ c, isPrintable c && negb (isQuote c)) (sanitizeCommand command)
  = true.
Proof.
  unfold sanitizeCommand. apply allChars_trim.
  rewrite allChars_and. apply andb_true_iff. split.
  - apply allChars_removeChars.
    rewrite (allChars_ext _ (λ c, negb (negb (isPrintable c))))
      by (intros c; by rewrite negb_involutive).
    apply (allChars_removeChars_class (λ c, negb (isPrintable c))).
  - apply allChars_removeChars_class.
Qed.

Lemma sanitizeCommand_fixed command :
  sanitizeCommand (sanitizeCommand command) = sanitizeCommand command.
Proof.
  pose proof (sanitizeCommand_chars command) as Hchars.
  rewrite allChars_and in Hchars. apply andb_true_iff in Hchars as [Hp Hq].
  unfold sanitizeCommand at 1.
  rewrite (removeChars_none (λ c, negb (isPrintable c)));
    [| by rewrite (allChars_ext _ isPrintable)
         by (intros c; by rewrite negb_involutive)].
  rewrite (removeChars_none isQuote) by done.
  unfold sanitizeCommand. apply trim_idempotent.
Qed.

End Strings.

(** X7: whatever the event's data, [handleSendCommand] either writes
    nothing to the container, or attaches once and writes one line: the
    sanitized command followed by a single line feed, where the sanitized
    command is non-empty, has only printable ASCII code units other than
    the three quote characters, and neither starts nor ends with a
    space. *)
Theorem handleSendCommand_written
    (session : WebSocketManager.ConsoleSession) (command : option string) :
  let trace := snd (Multiplexer.handleSendCommand session command) in
  trace = []
  ∨ ∃ data line,
      command = Some data
      ∧ line = Multiplexer.sanitizeCommand data
      ∧ trace
        = [ Multiplexer.Spawn "docker"
              ["attach"; "--sig-proxy=false";
               WebSocketManager.container session] 10000;
            Multiplexer.StdinWrite
              (line +:+ String Multiplexer.LF EmptyString);
            Multiplexer.StdinEndAfter 100 ]
      ∧ line ≠ EmptyString
      ∧ Multiplexer.allChars
          (λ c, Multiplexer.isPrintable c && negb (Multiplexer.isQuote c))
          line = true
      ∧ Multiplexer.trim line = line.
Proof.
  intros trace. subst trace. unfold Multiplexer.handleSendCommand.
  destruct command as [data|]; [| by left].
  destruct (String.eqb data EmptyString); [by left |].
  destruct (negb (Multiplexer.validatePayloadSize data)); [by left |].
  destruct (String.eqb_spec (Multiplexer.sanitizeCommand data) EmptyString)
    as [Hempty | Hne]; [by left |].
  right. exists data, (Multiplexer.sanitizeCommand data).
  split_and!; try done.
  - apply sanitizeCommand_chars.
  - unfold Multiplexer.sanitizeCommand at 2. apply trim_idempotent.
Qed.

(** X8: sanitizing a command twice gives what sanitizing it once gives. *)
Theorem sanitizeCommand_idempotent (command : string) :
  Multiplexer.sanitizeCommand (Multiplexer.sanitizeCommand command)
  = Multiplexer.sanitizeCommand command.
Proof. apply sanitizeCommand_fixed. Qed.

(** *** Broadcast *)

Section BroadcastProofs.
Import WebSocketManager Multiplexer.

Lemma broadcastLoop_take internalId peers : ∀ count,
  0 ≤ count ≤ 10 →
  broadcastLoop internalId count peers
  = take (Z.to_nat (10 - count))
         (map peerSocket (List.filter (reached internalId) peers)).
Proof.
  induction peers as [|p peers IH]; intros count Hcount.
  - cbn. by rewrite take_nil.
  - cbn [broadcastLoop List.filter]. unfold reached at 1.
    destruct (eligible internalId p); [| by apply IH].
    destruct (Z.leb_spec 10 count).
    + replace (Z.to_nat (10 - count)) with 0%nat by lia. by rewrite take_0.
    + destruct (sendThrows p); cbn [negb andb]; [by apply IH |].
      rewrite IH by lia. cbn [map].
      replace (Z.to_nat (10 - count)) with (S (Z.to_nat (10 - (count + 1))))
        by lia.
      done.
Qed.

Lemma addLogToBuffer_elem internalId log bufs :
  log ∈ getLogsForSession internalId (addLogToBuffer internalId log bufs).
Proof.
  unfold getLogsForSession at 1. rewrite addLogToBuffer_lookup. simpl.
  unfold pushBounded. case_bool_decide; [done |].
  destruct (_ <? _)%nat; apply elem_of_app; right; by apply list_elem_of_singleton.
Qed.

End BroadcastProofs.

(** X9: a broadcast whose log is too large, or empty once sanitized,
    changes nothing and reaches nobody; any other broadcast puts the
    formatted log into the server's ring, connected sessions or not, and
    sends it to the first ten sessions, in insertion order, that are of
    that server, authenticated and open and whose send succeeds, and to no
    other socket. *)
Theorem broadcastToServer_recipients
    (chalk_hex : string → string → string)
    (chalk_green chalk_red chalk_yellow : string → string)
    (internalId log : string) (type : WebSocketManager.LogType)
    (peers : list Multiplexer.Peer) (bufs : gmap string (list string)) :
  let result :=
    Multiplexer.broadcastToServer chalk_hex chalk_green chalk_red chalk_yellow
      internalId log type peers bufs in
  let message :=
    Multiplexer.formatLogMessage chalk_hex chalk_green chalk_red chalk_yellow
      type (Multiplexer.sanitizeLog log) in
  (Multiplexer.validatePayloadSize log = false
   ∨ Multiplexer.sanitizeLog log = EmptyString →
   result = (bufs, None))
  ∧ (Multiplexer.validatePayloadSize log = true →
     Multiplexer.sanitizeLog log ≠ EmptyString →
     ∃ sockets,
       result
       = (WebSocketManager.addLogToBuffer internalId message bufs,
          Some (message, sockets))
       ∧ message ∈ WebSocketManager.getLogsForSession internalId (fst result)
       ∧ sockets
         = take 10 (map Multiplexer.peerSocket
                      (List.filter (Multiplexer.reached internalId) peers))
       ∧ (length sockets ≤ 10)%nat
       ∧ ∀ socket, socket ∈ sockets →
           ∃ p, p ∈ peers ∧ Multiplexer.peerSocket p = socket
                ∧ Multiplexer.eligible internalId p = true
                ∧ Multiplexer.sendThrows p = false).
Proof.
  intros result message. subst result message.
  unfold Multiplexer.broadcastToServer. split.
  - intros [-> | ->]; [done |].
    by destruct (Multiplexer.validatePayloadSize log).
  - intros -> Hne. apply String.eqb_neq in Hne. rewrite Hne.
    cbn [negb fst snd]. eexists. split; [reflexivity |].
    rewrite broadcastLoop_take by lia.
    change (Z.to_nat (10 - 0)) with 10%nat.
    split_and!; [apply addLogToBuffer_elem | done | |].
    + rewrite length_take. lia.
    + intros socket Hin. apply (subseteq_take 10) in Hin.
      apply list_elem_of_fmap in Hin as (p & -> & Hp).
      apply list_elem_of_In, filter_In in Hp as [Hp Hreached].
      apply list_elem_of_In in Hp.
      unfold Multiplexer.reached in Hreached.
      apply andb_true_iff in Hreached as [Hel Hsend].
      apply negb_true_iff in Hsend. by exists p.
Qed.

(** *** Power actions, continued *)

Section PowerResponse.
Import WebSocketManager.

Lemma known_action action :
  existsb (String.eqb action) ["start"; "stop"; "restart"; "kill"] = true →
  action = "start" ∨ action = "stop" ∨ action = "restart" ∨ action = "kill".
Proof.
  cbn [existsb]. rewrite !orb_true_iff, !String.eqb_eq.
  intuition discriminate.
Qed.

End PowerResponse.

Ltac trace_membership :=
  rewrite ?in_app_iff; cbn [In WebSocketManager.powerFailure app];
  intuition (try discriminate; auto).

Section PowerArrivals.
Import WebSocketManager Multiplexer.

Variable chalk_hex : string → string → string.
Variables chalk_green chalk_red chalk_yellow : string → string.

(** What a broadcast sends does not depend on the rings. *)
Lemma broadcastToServer_sent internalId log type peers bufs :
  snd (broadcastToServer chalk_hex chalk_green chalk_red chalk_yellow
         internalId log type peers bufs)
  = if validatePayloadSize log
       && negb (String.eqb (sanitizeLog log) EmptyString)
    then Some (formatLogMessage chalk_hex chalk_green chalk_red chalk_yellow
                 type (sanitizeLog log),
               take 10 (map peerSocket
                          (List.filter (reached internalId) peers)))
    else None.
Proof.
  unfold broadcastToServer.
  destruct (validatePayloadSize log); cbn [negb andb]; [| done].
  destruct (String.eqb (sanitizeLog log) EmptyString); cbn [negb snd];
    [done |].
  rewrite broadcastLoop_take by lia. done.
Qed.

Lemma trimEnd_nonempty c s :
  JS.isWhiteSpace c = false → trimEnd (String c s) ≠ EmptyString.
Proof.
  intros Hc. cbn [trimEnd]. rewrite Hc. by destruct (trimEnd s).
Qed.

(** The failure message is never empty once sanitized. *)
Lemma sanitizeLog_failure rest :
  String.eqb (sanitizeLog ("Failed to " +:+ rest)) EmptyString = false.
Proof.
  apply String.eqb_neq. unfold sanitizeLog, trim.
  change ("Failed to " +:+ rest) with (String "F" ("ailed to " +:+ rest)).
  cbn [removeChars]. change (negb (isPrintable "F" || isLF "F")) with false.
  cbn iota. cbn [JS.skipWhiteSpace].
  change (JS.isWhiteSpace "F") with false. cbn iota.
  by apply trimEnd_nonempty.
Qed.

End PowerArrivals.

Ltac power_arrivals :=
  cbn [Multiplexer.performAll Multiplexer.perform app fst snd
       WebSocketManager.powerFailure WebSocketManager.sentFrames omap];
  rewrite ?broadcastToServer_sent, ?sanitizeLog_failure;
  repeat match goal with
         | |- context [Multiplexer.validatePayloadSize
                         ("Performing a " +:+ ?rest)] =>
             change (Multiplexer.validatePayloadSize
                       ("Performing a " +:+ rest)) with true
         | |- context [Multiplexer.sanitizeLog ("Performing a " +:+ ?rest)] =>
             change (Multiplexer.sanitizeLog ("Performing a " +:+ rest))
               with ("Performing a " +:+ rest)
         | |- context [String.eqb ("Performing a " +:+ ?rest) EmptyString] =>
             change (String.eqb ("Performing a " +:+ rest) EmptyString)
               with false
         end;
  cbn [negb andb app];
  eexists; (split; [reflexivity |]);
  unfold Multiplexer.recipients;
  repeat (cbn [andb app];
          match goal with
          | |- context [Multiplexer.validatePayloadSize ?log] =>
              destruct (Multiplexer.validatePayloadSize log)
          | |- context [bool_decide ?P] => destruct (bool_decide P)
          end);
  cbn [andb app]; reflexivity.

(** X10: an action other than start, stop, restart and kill makes
    [handlePowerAction] throw before anything is broadcast or asked of the
    engine.  For those four it returns, and its own send to the session
    is exactly one frame, a [power_status] or an [error], which is the
    last to arrive.  Before it the session's socket gets the console
    output of the handler's broadcasts when it is among their recipients:
    the announcement of the action and, when the frame is an [error], the
    failure message, unless that is too large.  The handler clears the
    server's log ring exactly when the transition was legal and the engine
    carried it out, and re-attaches the log stream exactly when, besides,
    the action was start or restart. *)
Theorem handlePowerAction_response
    (chalk_hex : string → string → string)
    (chalk_green chalk_red chalk_yellow : string → string)
    (socket : nat) (sessionsAt : nat → list Multiplexer.Peer)
    (logBuffers : gmap string (list string))
    (env : WebSocketManager.PowerEnv)
    (session : WebSocketManager.ConsoleSession) (action : string) :
  let result := WebSocketManager.handlePowerAction env session action in
  let known :=
    existsb (String.eqb action) ["start"; "stop"; "restart"; "kill"] in
  let carriedOut :=
    match WebSocketManager.inspectBefore env, WebSocketManager.operation env with
    | Returned info, Returned _ =>
        negb (WebSocketManager.illegalTransition action
                (WebSocketManager.exitedAsStopped
                   (WebSocketManager.Status info)))
    | _, _ => false
    end in
  let id := WebSocketManager.internalId session in
  let format :=
    Multiplexer.formatLogMessage chalk_hex chalk_green chalk_red
      chalk_yellow in
  let reaches (k : nat) :=
    bool_decide (socket ∈ Multiplexer.recipients sessionsAt id k) in
  (known = false → result = (Thrown "Invalid power action", []))
  ∧ (known = true →
     fst result = Returned tt
     ∧ (∃ frame,
          WebSocketManager.sentFrames (snd result) = [frame]
          ∧ snd (Multiplexer.performAll chalk_hex chalk_green chalk_red
                   chalk_yellow socket sessionsAt 0 (snd result) logBuffers)
            = (if reaches 0%nat
               then [Multiplexer.ConsoleOutput
                       (format WebSocketManager.DAEMON
                          ("Performing a " +:+ action
                           +:+ " action on server..."))]
               else [])
              ++ match frame with
                 | WebSocketManager.ErrorFrame errorMsg =>
                     let log :=
                       "Failed to " +:+ action +:+ " server: "
                       +:+ errorMsg in
                     if Multiplexer.validatePayloadSize log && reaches 1%nat
                     then [Multiplexer.ConsoleOutput
                             (format WebSocketManager.ERROR
                                (Multiplexer.sanitizeLog log))]
                     else []
                 | WebSocketManager.PowerStatusFrame _ _ _ _ => []
                 end
              ++ [Multiplexer.Direct frame])
     ∧ (In (WebSocketManager.ClearLogBuffer id) (snd result)
        ↔ carriedOut = true)
     ∧ (In WebSocketManager.AttachLogs (snd result)
        ↔ carriedOut = true ∧ (action = "start" ∨ action = "restart"))).
Proof.
  intros result known carriedOut id format reaches.
  subst result known carriedOut id format reaches. split.
  - intros Hunknown. unfold WebSocketManager.handlePowerAction.
    by rewrite Hunknown.
  - intros Hknown. unfold WebSocketManager.handlePowerAction.
    rewrite Hknown. cbn [negb].
    apply known_action in Hknown.
    destruct (WebSocketManager.inspectBefore env) as [info|e];
      [| destruct Hknown as [-> | [-> | [-> | ->]]];
         cbn [fst snd]; (split_and!; [done | power_arrivals | |]);
         trace_membership].
    destruct (WebSocketManager.illegalTransition action _) eqn:Hgate;
      [ destruct Hknown as [-> | [-> | [-> | ->]]];
        destruct (WebSocketManager.operation env);
        cbn [fst snd negb]; (split_and!; [done | power_arrivals | |]);
        trace_membership |].
    destruct Hknown as [-> | [-> | [-> | ->]]];
      unfold WebSocketManager.powerSwitch;
      cbn [String.eqb Ascii.eqb Bool.eqb andb];
      (destruct (WebSocketManager.operation env) as [[]|e];
       [ destruct (WebSocketManager.inspectAfter env) as [info'|e'] | ]);
      cbn [fst snd negb]; (split_and!; [done | power_arrivals | |]);
      trace_membership.
Qed.

(** X10 at a stop of a running server, for a session that is the only
    one of its server: two frames arrive, the announcement and the
    status. *)
Lemma handlePowerAction_response_witness :
  let session :=
    {| WebSocketManager.container := "c1"; WebSocketManager.stream := None;
       WebSocketManager.serverId := "s1"; WebSocketManager.internalId := "s1";
       WebSocketManager.userId := "u1"; WebSocketManager.authenticated := true;
       WebSocketManager.logStream := None; WebSocketManager.stdin := None;
       WebSocketManager.lastLogIndex := 0;
       WebSocketManager.lastHeartbeat := 0 |} in
  let peer :=
    {| Multiplexer.peerSocket := 7; Multiplexer.peerSession := session;
       Multiplexer.readyOpen := true; Multiplexer.sendThrows := false |} in
  let env :=
    {| WebSocketManager.inspectBefore :=
         Returned {| WebSocketManager.Status := "running";
                     WebSocketManager.Error := EmptyString |};
       WebSocketManager.operation := Returned tt;
       WebSocketManager.inspectAfter :=
         Returned {| WebSocketManager.Status := "exited";
                     WebSocketManager.Error := EmptyString |} |} in
  let plain (text : string) := text in
  snd (Multiplexer.performAll (λ _, plain) plain plain plain 7 (λ _, [peer])
         0 (snd (WebSocketManager.handlePowerAction env session "stop")) ∅)
  = [ Multiplexer.ConsoleOutput
        "[Krypton Daemon] Performing a stop action on server...";
      Multiplexer.Direct
        (WebSocketManager.PowerStatusFrame WebSocketManager.PoweredOff
           "stop" "stopped" EmptyString) ].
Proof.
  intros session peer env plain.
  destruct (proj2 (handlePowerAction_response (λ _, plain) plain plain plain
                     7 (λ _, [peer]) ∅ env session "stop") eq_refl)
    as (_ & (frame & Hsent & Harrivals) & _).
  injection Hsent as <-. rewrite Harrivals. reflexivity.
Defined.

(** *** Closing a session, continued *)

(** X11: the close handler leaves the log rings, the other sessions, the
    cache entries of other pairs and the connection counts of other
    addresses as they are; the count of its own address goes down by one
    and is removed when it would reach zero. *)
Theorem onClose_frame (sha256_hex : string → string) (socket : nat)
    (ip internalId token : string)
    (session : WebSocketManager.ConsoleSession)
    (m : WebSocketManager.Manager) :
  let m' :=
    fst (WebSocketManager.onClose sha256_hex socket ip internalId token
           session m) in
  WebSocketManager.logBuffers m' = WebSocketManager.logBuffers m
  ∧ (∀ other, other ≠ socket →
       WebSocketManager.sessions m' !! other
       = WebSocketManager.sessions m !! other)
  ∧ (∀ key,
       key ≠ WebSocketManager.generateCacheKey sha256_hex internalId token →
       WebSocketManager.validationCache m' !! key
       = WebSocketManager.validationCache m !! key)
  ∧ (∀ ip', ip' ≠ ip →
       WebSocketManager.ipConnections m' !! ip'
       = WebSocketManager.ipConnections m !! ip')
  ∧ WebSocketManager.ipConnections m' !! ip
    = match WebSocketManager.ipConnections m !! ip with
      | Some n => if n =? 0 then Some 0
                  else if n <=? 1 then None else Some (n - 1)
      | None => None
      end.
Proof.
  intros m'. subst m'. unfold WebSocketManager.onClose.
  cbn [fst WebSocketManager.logBuffers WebSocketManager.sessions
       WebSocketManager.validationCache WebSocketManager.ipConnections].
  split_and!; [done | | | |].
  - intros other Hne. by rewrite lookup_delete_ne.
  - intros key Hne. by rewrite lookup_delete_ne.
  - intros ip' Hne.
    destruct (WebSocketManager.ipConnections m !! ip) as [n|]; [| done].
    destruct (n =? 0); [done |].
    destruct (n <=? 1);
      [by rewrite lookup_delete_ne | by rewrite lookup_insert_ne].
  - destruct (WebSocketManager.ipConnections m !! ip) as [n|] eqn:Hn;
      [| done].
    destruct (Z.eqb_spec n 0) as [-> | Hne]; [done |].
    destruct (n <=? 1);
      [by rewrite lookup_delete_eq | by rewrite lookup_insert_eq].
Qed.

(** *** The log attacher's [data] handler *)

Section AttacherProofs.
Import WebSocketManager Multiplexer.

Implicit Types (s t line : string) (p : ascii → bool).

Lemma admittedCount_window times : ∀ st,
  0 ≤ logCount st →
  Forall (λ now, now - lastLogTime st < 100) times →
  Z.of_nat (admittedCount times st)
  = Z.max 0 (Z.min (Z.of_nat (length times)) (10 - logCount st)).
Proof.
  induction times as [|now times IH]; intros st Hcount Hwin.
  - simpl. lia.
  - apply Forall_cons in Hwin as [Hnow Hwin].
    cbn [admittedCount]. unfold admitChunk.
    destruct (Z.ltb_spec (now - lastLogTime st) 100); [| lia].
    rewrite Nat2Z.inj_add, IH; cbn [logCount lastLogTime]; [| lia | done].
    destruct (Z.ltb_spec 10 (logCount st + 1)); cbn [negb length]; lia.
Qed.

Lemma allChars_app p s t :
  allChars p (s +:+ t) = allChars p s && allChars p t.
Proof.
  induction s as [|c s IH]; [done |].
  change (allChars p (String c s +:+ t)) with (p c && allChars p (s +:+ t)).
  simpl. rewrite IH. by destruct (p c).
Qed.

Lemma isPrefix_slice pat s :
  JS.isPrefix pat s = true → s = pat +:+ JS.slice (String.length pat) s.
Proof.
  revert s. induction pat as [|a pat IH]; intros s; [done |].
  destruct s as [|b s]; [done |]. simpl.
  intros [Hab Hp]%andb_true_iff. apply Ascii.eqb_eq in Hab as ->.
  change (String b s = String b (pat +:+ JS.slice (String.length pat) s)).
  by rewrite <- (IH s Hp).
Qed.

Lemma findFirst_split pat s before after :
  JS.findFirst pat s = Some (before, after) →
  s = before +:+ pat +:+ after.
Proof.
  revert before after.
  induction s as [|c s IH]; intros before after; simpl.
  - destruct (JS.isPrefix pat EmptyString) eqn:Hp; [| done].
    intros [= <- <-]. by apply isPrefix_slice in Hp.
  - destruct (JS.isPrefix pat (String c s)) eqn:Hp.
    + intros [= <- <-]. by apply isPrefix_slice in Hp.
    + destruct (JS.findFirst pat s) as [[b a]|]; [| done].
      intros [= <- <-].
      change (String c s = String c (b +:+ pat +:+ a)).
      by rewrite <- (IH b a).
Qed.

(** The branding rewrite keeps a line free of whatever code units it was
    free of, the letters of the new name apart. *)
Lemma replace_brand_chars p line :
  allChars p "argon" = true →
  allChars p line = true →
  allChars p (JS.replace line "pterodactyl" "argon") = true.
Proof.
  intros Hnew Hline. unfold JS.replace.
  destruct (JS.findFirst "pterodactyl" line) as [[b a]|] eqn:Hf; [| done].
  apply findFirst_split in Hf. subst line.
  rewrite !allChars_app in Hline.
  apply andb_true_iff in Hline as [Hb [_ Ha]%andb_true_iff].
  change (JS.GetSubstitution "pterodactyl" b a "argon") with "argon".
  by rewrite !allChars_app, Hb, Hnew, Ha.
Qed.

Lemma splitLines_no_LF s :
  Forall (λ line, allChars (λ c, negb (isLF c)) line = true) (splitLines s).
Proof.
  induction s as [|c s IH]; [by repeat constructor |].
  cbn [splitLines]. fold (isLF c).
  destruct (isLF c) eqn:Hc; [by constructor |].
  destruct (Ascii.eqb c CR && _); [done |].
  destruct (splitLines s) as [|h t]; [by repeat constructor; simpl; rewrite Hc |].
  apply Forall_cons in IH as [Hh Ht].
  constructor; [| done]. simpl. by rewrite Hc, Hh.
Qed.

Lemma cleanLine_message line m :
  allChars (λ c, negb (isLF c)) line = true →
  cleanLine line = Some m →
  m ≠ EmptyString
  ∧ allChars (λ c, negb (isLF c)) m = true
  ∧ trim m = m
  ∧ validatePayloadSize m = true.
Proof.
  intros Hline. unfold cleanLine.
  destruct (0 <? String.length (trim line))%nat; [| done].
  destruct (String.eqb_spec
              (trim (JS.replace (trim line) "pterodactyl" "argon"))
              EmptyString) as [? | Hne]; [done |].
  cbn [negb andb].
  destruct (validatePayloadSize _) eqn:Hsize; [| done].
  intros [= <-]. split_and!; [done | | apply trim_idempotent | done].
  apply allChars_trim, replace_brand_chars; [done |].
  by apply allChars_trim.
Qed.

Lemma emitLines_sent internalId lines : ∀ bufs sent0,
  snd (foldl (λ '(bufs, sent) line,
                match cleanLine line with
                | Some cleaned =>
                    (addLogToBuffer internalId cleaned bufs, sent ++ [cleaned])
                | None => (bufs, sent)
                end) (bufs, sent0) lines)
  = sent0 ++ omap cleanLine lines.
Proof.
  induction lines as [|line lines IH]; intros bufs sent0.
  - simpl. by rewrite app_nil_r.
  - simpl. destruct (cleanLine line) as [m|].
    + rewrite IH. by rewrite <- app_assoc.
    + apply IH.
Qed.

Lemma removelast_Forall {A} (P : A → Prop) (l : list A) :
  Forall P l → Forall P (removelast l).
Proof.
  induction 1 as [|x l Hx Hl IH]; [constructor |].
  simpl. destruct l; [constructor | by constructor].
Qed.

Lemma last_Forall {A} (P : A → Prop) (l : list A) d :
  P d → Forall P l → P (List.last l d).
Proof.
  intros Hd. induction 1 as [|x l Hx Hl IH]; [done |].
  simpl. by destruct l.
Qed.

Lemma cleanLine_messages lines :
  Forall (λ line, allChars (λ c, negb (isLF c)) line = true) lines →
  Forall (λ m, m ≠ EmptyString
               ∧ allChars (λ c, negb (isLF c)) m = true
               ∧ trim m = m
               ∧ validatePayloadSize m = true)
         (omap cleanLine lines).
Proof.
  induction 1 as [|line lines Hline _ IH]; [constructor |].
  simpl. destruct (cleanLine line) as [m|] eqn:Hm; [| exact IH].
  constructor; [| exact IH]. by apply (cleanLine_message line).
Qed.

End AttacherProofs.

(** X12: of the chunks that arrive less than 100 ms after the start of
    the limiter's window, the [data] handler processes those that bring
    its counter up to at most ten and drops the rest; a dropped chunk is
    lost: the line buffer and the log rings stay as they are and nothing
    is sent. *)
Theorem onData_burst_guard (toStringUtf8 : list byte → string)
    (times : list Z) (now : Z) (chunk : list byte) (internalId : string)
    (st : Multiplexer.AttachState) (bufs : gmap string (list string)) :
  0 ≤ Multiplexer.logCount st →
  Forall (λ t, t - Multiplexer.lastLogTime st < 100) times →
  Z.of_nat (Multiplexer.admittedCount times st)
  = Z.max 0 (Z.min (Z.of_nat (length times)) (10 - Multiplexer.logCount st))
  ∧ (now - Multiplexer.lastLogTime st < 100 →
     10 ≤ Multiplexer.logCount st →
     Multiplexer.onData toStringUtf8 now chunk internalId st bufs
     = ({| Multiplexer.lineBuffer := Multiplexer.lineBuffer st;
           Multiplexer.lastLogTime := Multiplexer.lastLogTime st;
           Multiplexer.logCount := Multiplexer.logCount st + 1 |},
        bufs, [])).
Proof.
  intros Hcount Hwin. split; [by apply admittedCount_window |].
  intros Hnow Hfull. unfold Multiplexer.onData, Multiplexer.admitChunk.
  destruct (Z.ltb_spec (now - Multiplexer.lastLogTime st) 100); [| lia].
  by destruct (Z.ltb_spec 10 (Multiplexer.logCount st + 1)); [| lia].
Qed.

(** X12 at fifteen chunks within one window: ten are processed. *)
Lemma onData_burst_guard_witness :
  Multiplexer.admittedCount [1; 2; 3; 4; 5; 6; 7; 8; 9; 10; 11; 12; 13; 14; 15]
    {| Multiplexer.lineBuffer := EmptyString;
       Multiplexer.lastLogTime := 0; Multiplexer.logCount := 0 |}
  = 10%nat.
Proof.
  apply Nat2Z.inj.
  etrans;
    [ apply (proj1 (onData_burst_guard (λ _, EmptyString)
                      [1; 2; 3; 4; 5; 6; 7; 8; 9; 10; 11; 12; 13; 14; 15]
                      0 [] "s1"
                      {| Multiplexer.lineBuffer := EmptyString;
                         Multiplexer.lastLogTime := 0;
                         Multiplexer.logCount := 0 |} ∅
                      ltac:(cbn; lia) ltac:(repeat constructor; cbn; lia)))
    | reflexivity ].
Defined.

(** X13: every message the [data] handler records and sends is non-empty,
    contains no line feed, has no white space at either end and is within
    the payload limit; the text it carries over to the next chunk contains
    no line feed either. *)
Theorem onData_messages (toStringUtf8 : list byte → string)
    (now : Z) (chunk : list byte) (internalId : string)
    (st : Multiplexer.AttachState) (bufs : gmap string (list string)) :
  Multiplexer.allChars (λ c, negb (Multiplexer.isLF c))
    (Multiplexer.lineBuffer st) = true →
  let result :=
    Multiplexer.onData toStringUtf8 now chunk internalId st bufs in
  Forall (λ m, m ≠ EmptyString
               ∧ Multiplexer.allChars (λ c, negb (Multiplexer.isLF c)) m = true
               ∧ Multiplexer.trim m = m
               ∧ Multiplexer.validatePayloadSize m = true)
         (snd result)
  ∧ Multiplexer.allChars (λ c, negb (Multiplexer.isLF c))
      (Multiplexer.lineBuffer (fst (fst result))) = true.
Proof.
  intros Hbuf result. subst result. unfold Multiplexer.onData.
  destruct (Multiplexer.admitChunk now st) as [[admitted last] count].
  destruct admitted; cbn [negb]; [| by split].
  set (buffer := foldl _ _ _).
  pose proof (splitLines_no_LF buffer) as Hlines.
  destruct (Multiplexer.emitLines internalId
              (removelast (Multiplexer.splitLines buffer)) bufs)
    as [bufs' sent] eqn:Hemit.
  cbn [fst snd Multiplexer.lineBuffer]. split.
  - assert (sent = omap Multiplexer.cleanLine
                     (removelast (Multiplexer.splitLines buffer))) as ->.
    { change sent with (snd (bufs', sent)). rewrite <- Hemit.
      unfold Multiplexer.emitLines. by rewrite emitLines_sent. }
    by apply cleanLine_messages, removelast_Forall.
  - by apply last_Forall.
Qed.

(** X13 at a chunk of unframed text holding one complete line. *)
Lemma onData_messages_witness :
  let result :=
    Multiplexer.onData string_of_list_byte 500
      [x20; x75; x70; x20; x0a; x6c] "s1"
      {| Multiplexer.lineBuffer := "start"; Multiplexer.lastLogTime := 0;
         Multiplexer.logCount := 0 |} ∅ in
  Forall (λ m, m ≠ EmptyString
               ∧ Multiplexer.allChars (λ c, negb (Multiplexer.isLF c)) m = true
               ∧ Multiplexer.trim m = m
               ∧ Multiplexer.validatePayloadSize m = true)
         (snd result)
  ∧ snd result = ["start up"].
Proof.
  intros result. split; [| reflexivity].
  apply (onData_messages string_of_list_byte 500
           [x20; x75; x70; x20; x0a; x6c] "s1"
           {| Multiplexer.lineBuffer := "start"; Multiplexer.lastLogTime := 0;
              Multiplexer.logCount := 0 |} ∅).
  reflexivity.
Defined.

(** *** The parser, continued *)

Section ParserTotal.
Import WebSocketManager.

Lemma sliceFrom_length chunk offset :
  0 ≤ offset ≤ chunkLength chunk →
  Z.of_nat (length (sliceFrom chunk offset)) = chunkLength chunk - offset.
Proof.
  intros Hoff. unfold sliceFrom, chunkLength in *. rewrite length_drop. lia.
Qed.

Lemma sliceRange_length chunk from to :
  0 ≤ from ≤ to → to ≤ chunkLength chunk →
  Z.of_nat (length (sliceRange chunk from to)) = to - from.
Proof.
  intros Hfrom Hto. unfold sliceRange, chunkLength in *.
  rewrite length_take, length_drop. lia.
Qed.

Lemma nonempty_length (slice : list byte) :
  0 < Z.of_nat (length slice) → slice ≠ [].
Proof. by destruct slice; [simpl; lia |]. Qed.

Lemma parseFrom_total fuel : ∀ chunk offset emitted,
  0 ≤ offset →
  Z.max 0 (chunkLength chunk - offset) < Z.of_nat fuel →
  ∃ out,
    parseFrom fuel chunk offset emitted = Some (emitted ++ out)
    ∧ Forall (λ slice, slice ≠ []) out
    ∧ Z.of_nat (length (concat out)) ≤ Z.max 0 (chunkLength chunk - offset).
Proof.
  induction fuel as [|fuel IH]; intros chunk offset emitted Hoff Hfuel;
    [lia |].
  cbn [parseFrom].
  destruct (Z.ltb_spec offset (chunkLength chunk)) as [Hin | Hout]; cbn [negb].
  2: { exists []. rewrite app_nil_r. split_and!; [done | constructor |].
       simpl. lia. }
  assert (∃ out,
            Some (emitted ++ [sliceFrom chunk offset]) = Some (emitted ++ out)
            ∧ Forall (λ slice, slice ≠ []) out
            ∧ Z.of_nat (length (concat out))
              ≤ Z.max 0 (chunkLength chunk - offset)) as Hraw.
  { exists [sliceFrom chunk offset].
    pose proof (sliceFrom_length chunk offset ltac:(lia)) as Hlen.
    split_and!; [done | |].
    - repeat constructor. apply nonempty_length. lia.
    - simpl. rewrite app_nil_r. lia. }
  destruct (chunkLength chunk <? offset + 8); [exact Hraw |].
  destruct (isValidHeader chunk offset) eqn:Hvalid; [| exact Hraw].
  unfold isValidHeader in Hvalid. rewrite !andb_true_iff in Hvalid.
  destruct Hvalid as [[[_ Hpos] _] Hfit].
  apply Z.ltb_lt in Hpos. apply Z.leb_le in Hfit.
  set (size := readUInt32BE chunk (offset + 4)) in *.
  destruct (IH chunk (offset + 8 + size)
              (emitted ++ [sliceRange chunk (offset + 8) (offset + 8 + size)])
              ltac:(lia) ltac:(lia)) as (out & -> & Hne & Hlen).
  exists (sliceRange chunk (offset + 8) (offset + 8 + size) :: out).
  pose proof (sliceRange_length chunk (offset + 8) (offset + 8 + size)
                ltac:(lia) ltac:(lia)) as Hslice.
  split_and!.
  - by rewrite <- app_assoc.
  - constructor; [| done]. apply nonempty_length. lia.
  - cbn [concat]. rewrite length_app. lia.
Qed.

End ParserTotal.

(** X14: the parser of the log attacher returns for every chunk; no slice
    it yields is empty, and together the slices hold no more bytes than
    the chunk. *)
Theorem parseChunk_total (chunk : list byte) :
  ∃ slices,
    WebSocketManager.parseChunk chunk = Some slices
    ∧ Forall (λ slice, slice ≠ []) slices
    ∧ (length (concat slices) ≤ length chunk)%nat.
Proof.
  destruct (parseFrom_total (S (length chunk)) chunk 0 [])
    as (out & Hparse & Hne & Hlen);
    [done | unfold WebSocketManager.chunkLength; lia |].
  exists out. split_and!; [exact Hparse | done |].
  unfold WebSocketManager.chunkLength in Hlen. lia.
Qed.

(** *** The log ring, continued *)

Section RingTail.
Import WebSocketManager.

Lemma insertAll_snoc inserts id log bufs :
  insertAll (inserts ++ [(id, log)]) bufs
  = addLogToBuffer id log (insertAll inserts bufs).
Proof. unfold insertAll. by rewrite foldl_app. Qed.

Lemma ring_of_distinct id (logs : list string) :
  NoDup logs →
  getLogsForSession id (insertAll (map (λ log, (id, log)) logs) ∅)
  = drop (length logs - MAX_LOGS) logs.
Proof.
  induction logs as [|log logs IH] using rev_ind; intros Hnd; [done |].
  apply NoDup_app in Hnd as (Hnd & Hfresh & _).
  rewrite map_app. cbn [map]. rewrite insertAll_snoc.
  unfold getLogsForSession at 1. rewrite addLogToBuffer_lookup. cbn [default].
  rewrite (IH Hnd). unfold pushBounded, MAX_LOGS.
  rewrite bool_decide_false.
  2: { intros [i Hi]%list_elem_of_lookup. rewrite lookup_drop in Hi.
       apply list_elem_of_lookup_2 in Hi. apply (Hfresh log Hi).
       by apply list_elem_of_singleton. }
  rewrite length_drop, length_app. cbn [length].
  destruct (Nat.ltb_spec (length logs - (length logs - 100)) 100) as [Hlt | Hge].
  - replace (length logs - 100)%nat with 0%nat by lia.
    replace (length logs + 1 - 100)%nat with 0%nat by lia. done.
  - rewrite drop_app_le by lia.
    replace (length logs + 1 - 100)%nat with (S (length logs - 100)) by lia.
    change (tail (drop (length logs - 100) logs) ++ [log]
            = drop (S (length logs - 100)) logs ++ [log]).
    f_equal.
    replace (S (length logs - 100)) with (length logs - 100 + 1)%nat by lia.
    rewrite <- drop_drop. by destruct (drop (length logs - 100) logs).
Qed.

End RingTail.

(** X15: when the lines inserted into an empty ring are pairwise
    distinct, the ring holds the last hundred of them, in the order of
    insertion. *)
Theorem ring_keeps_last_hundred (id : string) (logs : list string) :
  NoDup logs →
  WebSocketManager.getLogsForSession id
    (WebSocketManager.insertAll (map (λ log, (id, log)) logs) ∅)
  = drop (length logs - 100) logs.
Proof. apply ring_of_distinct. Qed.

(** X15 at three lines. *)
Lemma ring_keeps_last_hundred_witness :
  WebSocketManager.getLogsForSession "s1"
    (WebSocketManager.insertAll
       (map (λ log, ("s1", log)) ["starting"; "loading world"; "done"]) ∅)
  = ["starting"; "loading world"; "done"].
Proof.
  apply (ring_keeps_last_hundred "s1" ["starting"; "loading world"; "done"]).
  apply (bool_decide_unpack _). vm_compute. exact I.
Defined.

(** *** Fetching the configuration, continued *)

Ltac backoff_leaf :=
  use_gets; split_and!;
  [ simpl; lia
  | simpl; repeat first [ apply Forall_nil_2 | apply Forall_cons_2; [lia |] ]
  | intros ? ? ? ? ? ?; simplify_eq; split; reflexivity ].

(** X16: [fetchServerConfig] waits 1000 or 2000 ms at a time and at most
    3000 ms in all; when the three attempts are rejected it has waited
    1000 and then 2000 ms, and the error it throws carries the message of
    the third rejection. *)
Theorem fetchServerConfig_backoff {D : Type} (appUrl serverId : string)
    (panel : Z → ServersRouter.HttpOutcome D) :
  let result := fst (ServersRouter.fetchServerConfig appUrl serverId panel) in
  let trace := snd (ServersRouter.fetchServerConfig appUrl serverId panel) in
  foldr Z.add 0 (ServersRouter.sleeps trace) ≤ 3000
  ∧ Forall (λ ms, ms = 1000 ∨ ms = 2000) (ServersRouter.sleeps trace)
  ∧ (∀ m1 m2 m3,
       ServersRouter.axios_get (panel 1) = Thrown m1 →
       ServersRouter.axios_get (panel 2) = Thrown m2 →
       ServersRouter.axios_get (panel 3) = Thrown m3 →
       result
       = Thrown ("Failed to fetch server configuration after 3 attempts: "
                 +:+ m3)
       ∧ ServersRouter.sleeps trace = [1000; 2000]).
Proof.
  intros result trace. subst result trace.
  unfold ServersRouter.fetchServerConfig.
  change (Z.to_nat ServersRouter.maxRetries) with 3%nat.
  cbn [ServersRouter.fetchAttempts].
  attempt_cases panel 1;
    [| change (1 + 1) with 2; attempt_cases panel 2;
       [| change (2 + 1) with 3; attempt_cases panel 3 ..] ..];
    backoff_leaf.
Qed.

(** *** The installer's exit code *)

(** X17: [monitorInstallation] returns exactly when the installer exits
    with code 0; for any other code it throws the message carrying the
    code alone, whether or not the container's logs could be read: the
    log text never reaches the error. *)
Theorem monitorInstallation_exit_code (statusCode : Z)
    (logs : Outcome string) :
  Lifecycle.monitorInstallation statusCode logs
  = if statusCode =? 0 then Returned tt
    else Thrown ("Installation failed with exit code "
                 +:+ ServersRouter.showZ statusCode).
Proof.
  unfold Lifecycle.monitorInstallation.
  destruct (statusCode =? 0); [done |]. by destruct logs.
Qed.

(** *** The power route *)

Section PowerRoute.
Import Lifecycle.


End PowerRoute.


(** *** Templating, continued *)

Section Substitution.
Import Template Multiplexer.

Implicit Types (s t pat before after : string).

Lemma append_cons c s t : String c s +:+ t = String c (s +:+ t).
Proof. reflexivity. Qed.

Lemma isPrefix_append pat after : JS.isPrefix pat (pat +:+ after) = true.
Proof.
  induction pat as [|c pat IH]; [done |].
  rewrite append_cons. simpl. by rewrite Ascii.eqb_refl, IH.
Qed.

Lemma append_length s t :
  String.length (s +:+ t) = (String.length s + String.length t)%nat.
Proof.
  induction s as [|c s IH]; [done |]. rewrite append_cons. simpl.
  by rewrite IH.
Qed.

Lemma append_inj_length s1 s2 t1 t2 :
  s1 +:+ t1 = s2 +:+ t2 → String.length s1 = String.length s2 →
  s1 = s2 ∧ t1 = t2.
Proof.
  revert s2. induction s1 as [|c s1 IH]; intros [|d s2]; try done.
  rewrite !append_cons. intros [= -> Heq] [= Hlen].
  by destruct (IH s2 Heq Hlen) as [-> ->].
Qed.

(** [findFirst] finds an occurrence when there is one, and the leftmost
    one. *)
Lemma findFirst_leftmost pat s before after :
  s = before +:+ pat +:+ after →
  ∃ b a, JS.findFirst pat s = Some (b, a)
         ∧ (String.length b ≤ String.length before)%nat.
Proof.
  revert before. induction s as [|c s IH]; intros before Hs.
  - destruct before; [| done]. destruct pat; [| done].
    by exists EmptyString, EmptyString.
  - cbn [JS.findFirst].
    destruct (JS.isPrefix pat (String c s)) eqn:Hp.
    { eexists _, _. split; [done |]. simpl. lia. }
    destruct before as [|d before].
    { change (String c s = pat +:+ after) in Hs.
      rewrite Hs, isPrefix_append in Hp. done. }
    rewrite append_cons in Hs. injection Hs as -> Hs.
    destruct (IH before Hs) as (b & a & -> & Hlen).
    eexists _, _. split; [done |]. simpl. lia.
Qed.

Lemma GetSubstitution_literal matched before after repl :
  allChars (λ c, negb (Ascii.eqb c "$")) repl = true →
  JS.GetSubstitution matched before after repl = repl.
Proof.
  induction repl as [|c repl IH]; [done |]. simpl.
  intros [Hc Hrepl]%andb_true_iff. apply negb_true_iff in Hc.
  by rewrite Hc, (IH Hrepl).
Qed.

(** A pattern that does not occur is not replaced. *)
Lemma replace_absent s pat repl :
  (∀ before after, s ≠ before +:+ pat +:+ after) → JS.replace s pat repl = s.
Proof.
  intros Habsent. unfold JS.replace.
  destruct (JS.findFirst pat s) as [[b a]|] eqn:Hf; [| done].
  apply findFirst_split in Hf. by destruct (Habsent b a).
Qed.

Lemma replaceCargo_no_percent cargo s :
  allChars (λ c, negb (Ascii.eqb c "%")) s = true →
  replaceCargo cargo 0 s = Returned s.
Proof.
  induction s as [|c s IH]; [done |].
  cbn [allChars]. intros [Hc Hs]%andb_true_iff. apply negb_true_iff in Hc.
  cbn [replaceCargo]. unfold matchCargoAt. cbn [JS.isPrefix].
  rewrite Ascii.eqb_sym, Hc. cbn [andb]. by rewrite (IH Hs).
Qed.

Lemma placeholder_absent v s :
  allChars (λ c, negb (Ascii.eqb c "%")) s = true →
  ∀ before after, s ≠ before +:+ placeholder v +:+ after.
Proof.
  intros Hs before after ->. rewrite !allChars_app in Hs.
  apply andb_true_iff in Hs as [_ [Hph _]%andb_true_iff].
  unfold placeholder in Hph. by rewrite append_cons in Hph.
Qed.

Lemma substituteVariables_absent input variables :
  Forall (λ v, validateVariableValue (valueOf v) (rules v) = true) variables →
  (∀ v, v ∈ variables →
        ∀ before after, input ≠ before +:+ placeholder v +:+ after) →
  substituteVariables input variables = Returned input.
Proof.
  induction 1 as [|v variables Hv _ IH]; intros Habsent; [done |].
  cbn [substituteVariables]. rewrite Hv. cbn [negb].
  rewrite replace_absent by (apply Habsent; by left).
  apply IH. intros u Hu. apply Habsent. by right.
Qed.

(** A variable that fails its rules makes the loop throw. *)
Lemma substituteVariables_violation input variables :
  Exists (λ v, validateVariableValue (valueOf v) (rules v) = false) variables →
  ∃ message, substituteVariables input variables = Thrown message.
Proof.
  intros Hbad. revert input.
  induction variables as [|v variables IH]; intros input;
    [by apply Exists_nil in Hbad |].
  cbn [substituteVariables].
  destruct (validateVariableValue (valueOf v) (rules v)) eqn:Hv; cbn [negb];
    [| by eexists].
  apply IH. apply Exists_cons in Hbad as [Hbad | Hbad]; [congruence | done].
Qed.

End Substitution.

(** X19: when every variable passes its rules, a string in which no
    variable's placeholder occurs is returned as it is by a templating
    without cargo, unmatched placeholders included; and a string without
    any percent sign is returned as it is whatever the cargo. *)
Theorem processVariables_unchanged (input : string)
    (variables : list Template.ServerVariable) :
  Forall (λ v, Template.validateVariableValue (Template.valueOf v)
                 (Template.rules v) = true) variables →
  ((∀ v, v ∈ variables →
         ∀ before after,
           input ≠ before +:+ Template.placeholder v +:+ after) →
   Template.processVariables input variables None = Returned input)
  ∧ (Multiplexer.allChars (λ c, negb (Ascii.eqb c "%")) input = true →
     ∀ cargo, Template.processVariables input variables cargo = Returned input).
Proof.
  intros Hvalid. split.
  - intros Habsent. unfold Template.processVariables.
    by rewrite substituteVariables_absent.
  - intros Hplain cargo. unfold Template.processVariables.
    rewrite substituteVariables_absent;
      [| done | intros v _; by apply placeholder_absent].
    destruct cargo as [files|]; [| done].
    by apply replaceCargo_no_percent.
Qed.

(** X19 at a command with a placeholder of no variable. *)
Lemma processVariables_unchanged_witness :
  Template.processVariables "java -Xmx%heap%M -jar server.jar"
    [Template.mkVariable "Memory" "1024" None "string|max:8"] None
  = Returned "java -Xmx%heap%M -jar server.jar".
Proof.
  apply (proj1 (processVariables_unchanged "java -Xmx%heap%M -jar server.jar"
                  [Template.mkVariable "Memory" "1024" None "string|max:8"]
                  ltac:(repeat constructor))).
  intros v ->%list_elem_of_singleton before after Heq.
  destruct (findFirst_leftmost _ _ _ _ Heq) as (b & a & Hf & _).
  vm_compute in Hf. discriminate Hf.
Defined.

(** X20: for one variable that passes its rules and whose value has no
    dollar sign, templating without cargo replaces the leftmost occurrence
    of its placeholder by the value and leaves the text before and after
    it as it is. *)
Theorem processVariables_leftmost (v : Template.ServerVariable)
    (before after : string) :
  Template.validateVariableValue (Template.valueOf v) (Template.rules v)
  = true →
  Multiplexer.allChars (λ c, negb (Ascii.eqb c "$")) (Template.valueOf v)
  = true →
  (∀ b a, before +:+ Template.placeholder v +:+ after
          = b +:+ Template.placeholder v +:+ a →
          (String.length before ≤ String.length b)%nat) →
  Template.processVariables (before +:+ Template.placeholder v +:+ after)
    [v] None
  = Returned (before +:+ Template.valueOf v +:+ after).
Proof.
  intros Hvalid Hplain Hleft. unfold Template.processVariables.
  cbn [Template.substituteVariables]. rewrite Hvalid. cbn [negb].
  unfold JS.replace.
  destruct (findFirst_leftmost (Template.placeholder v) _ before after eq_refl)
    as (b & a & Hf & Hlen).
  rewrite Hf. pose proof (findFirst_split _ _ _ _ Hf) as Hsplit.
  pose proof (Hleft b a Hsplit) as Hmin.
  destruct (append_inj_length before b _ _ Hsplit ltac:(lia)) as [<- Hrest].
  destruct (append_inj_length _ _ _ _ Hrest eq_refl) as [_ <-].
  by rewrite GetSubstitution_literal.
Qed.

(** X20 at a command with the placeholder twice. *)
Lemma processVariables_leftmost_witness :
  Template.processVariables "-Xms%memory%M -Xmx%memory%M"
    [Template.mkVariable "Memory" "1024" None "string"] None
  = Returned "-Xms1024M -Xmx%memory%M".
Proof.
  apply (processVariables_leftmost
           (Template.mkVariable "Memory" "1024" None "string")
           "-Xms" "M -Xmx%memory%M"); [reflexivity | reflexivity |].
  intros b a Heq.
  destruct b as [|c0 [|c1 [|c2 [|c3 b]]]]; try (simpl; lia);
    vm_compute in Heq; discriminate Heq.
Defined.

(** *** The runtime container *)

(** X21: when a variable of the configuration fails its rules,
    [createGameContainer] throws and no container is created, whatever the
    engine would have answered. *)
Theorem createGameContainer_rule_violation (resolve : string → string)
    (volumesDirectory : string) (chmod : Outcome unit)
    (engine : Outcome string) (serverId : string)
    (config : Lifecycle.ServerConfig) (memoryLimit cpuLimit : Z)
    (allocation : Lifecycle.Allocation) :
  Exists (λ v, Template.validateVariableValue (Template.valueOf v)
                 (Template.rules v) = false)
         (Lifecycle.variables config) →
  let result :=
    Lifecycle.createGameContainer resolve volumesDirectory chmod engine
      serverId config memoryLimit cpuLimit allocation in
  Lifecycle.created (snd result) = []
  ∧ ∃ message, fst result = Thrown message.
Proof.
  intros Hbad result. subst result. unfold Lifecycle.createGameContainer.
  destruct chmod as [[]|e]; [| by split; [| eexists]].
  unfold Template.processVariables.
  destruct (substituteVariables_violation
              (Lifecycle.startupCommand config) _ Hbad) as [message ->].
  by split; [| eexists].
Qed.

(** X21 at the port of six digits under [max:4]. *)
Lemma createGameContainer_rule_violation_witness :
  let config :=
    {| Lifecycle.dockerImage := "game:latest";
       Lifecycle.variables :=
         [Template.mkVariable "PORT" "999999" None "string|max:4"];
       Lifecycle.startupCommand := "./run --port %port%";
       Lifecycle.configFiles := [];
       Lifecycle.install :=
         {| Lifecycle.install_dockerImage := "installer:latest";
            Lifecycle.entrypoint := "bash";
            Lifecycle.script := "echo hi" |};
       Lifecycle.cargo := None |} in
  Lifecycle.created
    (snd (Lifecycle.createGameContainer (λ p, p) "/volumes" (Returned tt)
            (Returned "c1") "s1" config 1073741824 1
            {| Lifecycle.bindAddress := "0.0.0.0";
               Lifecycle.port := 25565 |}))
  = [].
Proof.
  intros config.
  apply (createGameContainer_rule_violation (λ p, p) "/volumes" (Returned tt)
           (Returned "c1") "s1" config 1073741824 1
           {| Lifecycle.bindAddress := "0.0.0.0"; Lifecycle.port := 25565 |}).
  apply Exists_cons_hd. reflexivity.
Defined.

(** X22: when the mode change succeeds and the startup command is
    templated to [command], [createGameContainer] asks the engine for one
    container and returns its answer; the environment of that container is
    the three fixed entries, [STARTUP=command], and one entry per variable
    in order.  The entry of a variable carries the value that is templated
    into the startup command, except when the variable's current value is
    the empty string: templated as empty, it is exported with the default
    value. *)
Theorem createGameContainer_environment (resolve : string → string)
    (volumesDirectory : string) (engine : Outcome string)
    (serverId : string) (config : Lifecycle.ServerConfig)
    (memoryLimit cpuLimit : Z) (allocation : Lifecycle.Allocation)
    (command : string) :
  Template.processVariables (Lifecycle.startupCommand config)
    (Lifecycle.variables config) None = Returned command →
  let result :=
    Lifecycle.createGameContainer resolve volumesDirectory (Returned tt)
      engine serverId config memoryLimit cpuLimit allocation in
  fst result = engine
  ∧ (∃ options,
       Lifecycle.created (snd result) = [options]
       ∧ Lifecycle.Env options
         = [ "TERM=xterm"; "HOME=/home/container"; "USER=container";
             "STARTUP=" +:+ command ]
           ++ map (λ v, Template.name v +:+ "=" +:+ Lifecycle.envValue v)
                  (Lifecycle.variables config))
  ∧ (∀ v, Lifecycle.envValue v
          = match Template.currentValue v with
            | Some EmptyString => Template.defaultValue v
            | _ => Template.valueOf v
            end).
Proof.
  intros Hcommand result. subst result.
  unfold Lifecycle.createGameContainer. rewrite Hcommand.
  split_and!; [done | by eexists |].
  intros v. unfold Lifecycle.envValue, Template.valueOf.
  destruct (Template.currentValue v) as [[|c cur]|]; done.
Qed.

(** X22 at a variable whose current value is the empty string. *)
Lemma createGameContainer_environment_witness :
  let config :=
    {| Lifecycle.dockerImage := "game:latest";
       Lifecycle.variables :=
         [Template.mkVariable "MOTD" "welcome" (Some EmptyString) "nullable"];
       Lifecycle.startupCommand := "./run --motd=%motd%";
       Lifecycle.configFiles := [];
       Lifecycle.install :=
         {| Lifecycle.install_dockerImage := "installer:latest";
            Lifecycle.entrypoint := "bash";
            Lifecycle.script := "echo hi" |};
       Lifecycle.cargo := None |} in
  ∃ options,
    Lifecycle.created
      (snd (Lifecycle.createGameContainer (λ p, p) "/volumes" (Returned tt)
              (Returned "c1") "s1" config 1073741824 1
              {| Lifecycle.bindAddress := "0.0.0.0";
                 Lifecycle.port := 25565 |}))
    = [options]
    ∧ Lifecycle.Env options
      = [ "TERM=xterm"; "HOME=/home/container"; "USER=container";
          "STARTUP=./run --motd="; "MOTD=welcome" ].
Proof.
  intros config.
  destruct (createGameContainer_environment (λ p, p) "/volumes"
              (Returned "c1") "s1" config 1073741824 1
              {| Lifecycle.bindAddress := "0.0.0.0"; Lifecycle.port := 25565 |}
              "./run --motd=" eq_refl)
    as (_ & (options & Hcreated & Henv) & _).
  exists options. split; [exact Hcreated | exact Henv].
Defined.

(** *** The payload limit *)

Section Payload.
Import Multiplexer.

Lemma byteLength_lower data :
  Z.of_nat (String.length data) ≤ byteLength data.
Proof.
  induction data as [|c data IH]; [done |].
  cbn [byteLength String.length]. unfold utf8Bytes.
  destruct (JS.code c <? 128)%N; lia.
Qed.

Lemma byteLength_ascii data :
  allChars (λ c, (JS.code c <? 128)%N) data = true →
  byteLength data = Z.of_nat (String.length data).
Proof.
  induction data as [|c data IH]; [done |].
  cbn [allChars byteLength String.length]. unfold utf8Bytes.
  intros [-> Hdata]%andb_true_iff. rewrite (IH Hdata). lia.
Qed.

End Payload.

(** X23: a string of more than 51200 code units never passes the payload
    limit, and a string of ASCII code units passes exactly when it has at
    most 51200 of them. *)
Theorem validatePayloadSize_bounds (data : string) :
  (51200 < Z.of_nat (String.length data) →
   Multiplexer.validatePayloadSize data = false)
  ∧ (Multiplexer.allChars (λ c, (JS.code c <? 128)%N) data = true →
     (Multiplexer.validatePayloadSize data = true
      ↔ Z.of_nat (String.length data) ≤ 51200)).
Proof.
  pose proof (byteLength_lower data) as Hb.
  unfold Multiplexer.validatePayloadSize, Multiplexer.MAX_PAYLOAD_SIZE.
  split.
  - intros Hlen. apply Z.leb_gt. lia.
  - intros Hascii. rewrite (byteLength_ascii data Hascii), Z.leb_le. lia.
Qed.
